(** * The NDK crash handler of app-health-android, embedded in Rocq

    Source: [telemetry/src/main/cpp/ndk_crash_handler.c] and
    [ndk_crash_handler.h].

    - C [int], [size_t] and [unsigned long] values are integers of [Z]; the
      conversions to [unsigned long] (of the [int] base of [safe_itoa], and
      of the addresses the handler prints) are written out as [to_ulong].
    - A [char] is an [ascii]; a [char*] is the array object it points to, a
      [list char] read and written by index.  An access outside the object
      is undefined behaviour in C: the embedding returns [None] there.
    - System calls are recorded in a trace, and the answers of the kernel
      ([open]) and of the unwinder are read from the state. *)

From Stdlib Require Import ZArith Lia Ascii String.
From stdpp Require Import base decidable option numbers list gmap.

Local Open Scope Z_scope.

(** ** Characters, arrays and C strings *)

Definition char : Type := ascii.

Definition NUL : char := Ascii.zero.

#[global] Instance char_eq_dec : EqDecision char := ascii_dec.

(** The array a string literal denotes: its characters and the terminator. *)
Definition cstr (s : string) : list char := list_ascii_of_string s ++ [NUL].

(** [a[i]] as an rvalue. *)
Definition load {A} (a : list A) (i : Z) : option A :=
  if decide (0 <= i) then a !! Z.to_nat i else None.

(** [a[i] = x]. *)
Definition store {A} (a : list A) (i : Z) (x : A) : option (list A) :=
  if decide (0 <= i < Z.of_nat (length a)) then Some (<[Z.to_nat i := x]> a)
  else None.

(** ** ndk_crash_handler.h *)

Definition MAX_BACKTRACE_DEPTH : Z := 64.
Definition CRASH_BUFFER_SIZE : Z := 4096.
Definition INT_BUFFER_SIZE : Z := 24.

(** ** Integer types *)

Definition ULONG_BITS : Z := 64.

(** Conversion of an [int] to [unsigned long]. *)
Definition to_ulong (x : Z) : Z := x mod 2 ^ ULONG_BITS.

(** What an array without initialiser holds: no particular value.  The
    embedding fills it with a character that is not the terminator, so that
    a missing terminator is not hidden. *)
Definition indeterminate : char := "?"%char.

(** ** safe_itoa *)

Definition digits : list char := cstr "0123456789abcdef".

(** [while (value > 0 && i < INT_BUFFER_SIZE - 1)
       { temp[i++] = digits[value % base]; value /= base; }] *)
Fixpoint safe_itoa_fill (fuel : nat) (value base : Z) (temp : list char) (i : Z)
  : option (list char * Z) :=
  match fuel with
  | O => None
  | S fuel' =>
      if decide (0 < value /\ i < INT_BUFFER_SIZE - 1) then
        if decide (to_ulong base = 0) then None
        else
          d ← load digits (value mod to_ulong base);
          temp' ← store temp i d;
          safe_itoa_fill fuel' (value / to_ulong base) base temp' (i + 1)
      else Some (temp, i)
  end.

(** [while (i > 0) { buffer[j++] = temp[--i]; }] *)
Fixpoint safe_itoa_emit (fuel : nat) (buffer temp : list char) (i j : Z)
  : option (list char * Z) :=
  match fuel with
  | O => None
  | S fuel' =>
      if decide (0 < i) then
        c ← load temp (i - 1);
        buffer' ← store buffer j c;
        safe_itoa_emit fuel' buffer' temp (i - 1) (j + 1)
      else Some (buffer, j)
  end.

(** The result is the buffer after the call and the returned count. Both
    loops run at most [INT_BUFFER_SIZE - 1] times, so [INT_BUFFER_SIZE]
    units of fuel reach the exit test of each. *)
Definition safe_itoa (value : Z) (buffer : list char) (base : Z)
  : option (list char * Z) :=
  let temp := replicate (Z.to_nat INT_BUFFER_SIZE) indeterminate in
  if decide (value = 0) then
    buffer ← store buffer 0 "0"%char;
    buffer ← store buffer 1 NUL;
    Some (buffer, 1)
  else
    '(temp, i) ← safe_itoa_fill (Z.to_nat INT_BUFFER_SIZE) value base temp 0;
    '(buffer, j) ← safe_itoa_emit (Z.to_nat INT_BUFFER_SIZE) buffer temp i 0;
    buffer ← store buffer j NUL;
    Some (buffer, j).

(** ** safe_strcpy *)

Definition INT_MIN : Z := - 2 ^ 31.

(** [while (src[i] != '\0' && i < max_len - 1) { dest[i] = src[i]; i++; }]
    [src[i]] is read before the bound is tested. *)
Fixpoint safe_strcpy_loop (fuel : nat) (dest src : list char) (max_len i : Z)
  : option (list char * Z) :=
  match fuel with
  | O => None
  | S fuel' =>
      c ← load src i;
      if decide (c <> NUL /\ i < max_len - 1) then
        dest' ← store dest i c;
        safe_strcpy_loop fuel' dest' src max_len (i + 1)
      else Some (dest, i)
  end.

(** Every iteration reads one more element of [src], so the loop has ended,
    or has read outside [src], after [length src + 1] tests. *)
Definition safe_strcpy (dest src : list char) (max_len : Z)
  : option (list char * Z) :=
  if decide (max_len = INT_MIN) then None
  else
    '(dest, i) ← safe_strcpy_loop (S (length src)) dest src max_len 0;
    dest ← store dest i NUL;
    Some (dest, i).

(** ** Reading a C string *)

(** [while (str[len] != '\0') len++;] of [safe_write]: the index of the
    first terminator at or after [len]. *)
Fixpoint scan_nul (fuel : nat) (str : list char) (len : Z) : option Z :=
  match fuel with
  | O => None
  | S fuel' =>
      c ← load str len;
      if decide (c <> NUL) then scan_nul fuel' str (len + 1) else Some len
  end.

Definition c_strlen (str : list char) : option Z :=
  scan_nul (S (length str)) str 0.

(** The characters of the string an array holds, without the terminator. *)
Definition c_string (str : list char) : option (list char) :=
  len ← c_strlen str; Some (take (Z.to_nat len) str).

(** ** Signals, as <signal.h> of the Android NDK (Linux) numbers them *)

Definition SIGILL : Z := 4.
Definition SIGTRAP : Z := 5.
Definition SIGABRT : Z := 6.
Definition SIGBUS : Z := 7.
Definition SIGFPE : Z := 8.
Definition SIGKILL : Z := 9.
Definition SIGSEGV : Z := 11.
Definition SIGSTOP : Z := 19.

Definition SA_SIGINFO : Z := 4.
Definition SA_ONSTACK : Z := 134217728.

Definition O_WRONLY : Z := 1.
Definition O_CREAT : Z := 64.
Definition O_TRUNC : Z := 512.

(** What a [struct sigaction] designates as the handler. *)
Inductive sighandler : Type :=
  | SIG_DFL
  | SIG_IGN
  | fn_crash_signal_handler
  | fn_other (address : Z).

Record sigaction_t : Type := mk_sigaction {
  sa_sigaction : sighandler;
  sa_flags : Z;
  sa_mask : list Z
}.

(** [memset(&sa, 0, sizeof(sa))], also the content of a static
    [struct sigaction] and the default disposition of a signal. *)
Definition zero_sigaction : sigaction_t :=
  {| sa_sigaction := SIG_DFL; sa_flags := 0; sa_mask := [] |}.

Record siginfo_t : Type := mk_siginfo {
  si_signo : Z;
  si_addr : Z
}.

Definition g_signals : list Z :=
  [SIGSEGV; SIGABRT; SIGBUS; SIGFPE; SIGILL; SIGTRAP].

Definition g_num_signals : Z := 6.

Definition get_signal_name (sig : Z) : list char :=
  if decide (sig = SIGSEGV) then cstr "SIGSEGV"
  else if decide (sig = SIGABRT) then cstr "SIGABRT"
  else if decide (sig = SIGBUS) then cstr "SIGBUS"
  else if decide (sig = SIGFPE) then cstr "SIGFPE"
  else if decide (sig = SIGILL) then cstr "SIGILL"
  else if decide (sig = SIGTRAP) then cstr "SIGTRAP"
  else cstr "UNKNOWN".

(** ** The state: the globals of the file and the process around them *)

Inductive event : Type :=
  | EvOpen (path : list char) (flags mode : Z) (result : Z)
  | EvWrite (fd : Z) (data : list char)
  | EvClose (fd : Z)
  | EvSigaction (sig : Z) (act : option sigaction_t)
  | EvRaise (sig : Z).

Record state : Type := mk_state {
  g_crash_file_path : list char;
  g_crash_fd : Z;
  g_write_buffer : list char;
  g_backtrace_buffer : list Z;
  g_old_handlers : list sigaction_t;
  (** the disposition of each signal; a signal without entry has the
      default one *)
  k_actions : gmap Z sigaction_t;
  (** what the coming calls of [open] return, in order *)
  k_open : list Z;
  (** the program counters of the frames the unwinder presents, innermost
      first *)
  k_frames : list Z;
  (** the system calls made so far, oldest first *)
  k_trace : list event
}.

(** The globals as their initialisers leave them. *)
Definition initial_state (actions : gmap Z sigaction_t) (opens frames : list Z)
  : state :=
  {| g_crash_file_path := replicate 256 NUL;
     g_crash_fd := -1;
     g_write_buffer := replicate (Z.to_nat CRASH_BUFFER_SIZE) NUL;
     g_backtrace_buffer := replicate (Z.to_nat MAX_BACKTRACE_DEPTH) 0;
     g_old_handlers := replicate 6 zero_sigaction;
     k_actions := actions;
     k_open := opens;
     k_frames := frames;
     k_trace := [] |}.

Definition set_crash_file_path (v : list char) (s : state) : state :=
  mk_state v (g_crash_fd s) (g_write_buffer s) (g_backtrace_buffer s)
    (g_old_handlers s) (k_actions s) (k_open s) (k_frames s) (k_trace s).

Definition set_crash_fd (v : Z) (s : state) : state :=
  mk_state (g_crash_file_path s) v (g_write_buffer s) (g_backtrace_buffer s)
    (g_old_handlers s) (k_actions s) (k_open s) (k_frames s) (k_trace s).

Definition set_backtrace_buffer (v : list Z) (s : state) : state :=
  mk_state (g_crash_file_path s) (g_crash_fd s) (g_write_buffer s) v
    (g_old_handlers s) (k_actions s) (k_open s) (k_frames s) (k_trace s).

Definition set_old_handlers (v : list sigaction_t) (s : state) : state :=
  mk_state (g_crash_file_path s) (g_crash_fd s) (g_write_buffer s)
    (g_backtrace_buffer s) v (k_actions s) (k_open s) (k_frames s) (k_trace s).

Definition set_actions (v : gmap Z sigaction_t) (s : state) : state :=
  mk_state (g_crash_file_path s) (g_crash_fd s) (g_write_buffer s)
    (g_backtrace_buffer s) (g_old_handlers s) v (k_open s) (k_frames s)
    (k_trace s).

Definition set_open (v : list Z) (s : state) : state :=
  mk_state (g_crash_file_path s) (g_crash_fd s) (g_write_buffer s)
    (g_backtrace_buffer s) (g_old_handlers s) (k_actions s) v (k_frames s)
    (k_trace s).

Definition log (e : event) (s : state) : state :=
  mk_state (g_crash_file_path s) (g_crash_fd s) (g_write_buffer s)
    (g_backtrace_buffer s) (g_old_handlers s) (k_actions s) (k_open s)
    (k_frames s) (k_trace s ++ [e]).

(** A computation on the state that may run into undefined behaviour. *)
Definition M (A : Type) : Type := state -> option (A * state).

#[global] Instance M_ret : MRet M := λ A a s, Some (a, s).

#[global] Instance M_bind : MBind M := λ A B k m s,
  match m s with
  | Some (a, s') => k a s'
  | None => None
  end.

Definition lift {A} (o : option A) : M A := λ s,
  match o with
  | Some a => Some (a, s)
  | None => None
  end.

Definition gets {A} (f : state -> A) : M A := λ s, Some (f s, s).

Definition modify (f : state -> state) : M unit := λ s, Some (tt, f s).

(** ** The system calls the file makes *)

(** The disposition of [sig]. *)
Definition action_of (s : state) (sig : Z) : sigaction_t :=
  default zero_sigaction (k_actions s !! sig).

(** [open(path, flags, mode)]: the kernel reads the path up to its
    terminator and answers with a descriptor or a negative value. *)
Definition sys_open (path : list char) (flags mode : Z) : M Z := λ s,
  match c_string path with
  | None => None
  | Some p =>
      let result := match k_open s with [] => -1 | r :: _ => r end in
      Some (result, log (EvOpen p flags mode result) (set_open (tail (k_open s)) s))
  end.

(** [write(fd, buf, len)]; the result is not looked at by any caller. *)
Definition sys_write (fd : Z) (buf : list char) (len : Z) : M unit := λ s,
  if decide (0 <= len <= Z.of_nat (length buf)) then
    Some (tt, log (EvWrite fd (take (Z.to_nat len) buf)) s)
  else None.

Definition sys_close (fd : Z) : M unit := modify (log (EvClose fd)).

(** [sigaction(sig, act, oldact)]: the previous action is handed back and
    [act], when not null, becomes the action of [sig]; signals that do not
    exist or cannot be caught are refused ([None]). *)
Definition sys_sigaction (sig : Z) (act : option sigaction_t)
  : M (option sigaction_t) := λ s,
  let s' := log (EvSigaction sig act) s in
  if decide (1 <= sig <= 64 /\ sig <> SIGKILL /\ sig <> SIGSTOP) then
    Some (Some (action_of s sig),
          match act with
          | Some a => set_actions (<[sig := a]> (k_actions s)) s'
          | None => s'
          end)
  else Some (None, s').

(** [raise(sig)]: inside its handler the signal is blocked (no
    [SA_NODEFER]), so it is delivered once the handler returns, to the
    action installed by then. *)
Definition sys_raise (sig : Z) : M unit := modify (log (EvRaise sig)).

(** ** safe_write *)

Definition safe_write (fd : Z) (str : option (list char)) : M unit :=
  if decide (fd < 0 \/ str = None) then mret tt
  else
    str ← lift str;
    len ← lift (c_strlen str);
    sys_write fd str len.

(** ** The unwinder *)

Inductive _Unwind_Reason_Code : Type :=
  | _URC_NO_REASON
  | _URC_FATAL_PHASE1_ERROR
  | _URC_END_OF_STACK.

Record backtrace_state_t : Type := mk_backtrace_state {
  buffer : list Z;
  max_depth : Z;
  count : Z
}.

(** [_Unwind_GetIP(context)] is the argument [pc]. *)
Definition unwind_callback (pc : Z) (state : backtrace_state_t)
  : option (_Unwind_Reason_Code * backtrace_state_t) :=
  if decide (max_depth state <= count state) then Some (_URC_END_OF_STACK, state)
  else if decide (pc <> 0) then
    buffer' ← store (buffer state) (count state) pc;
    Some (_URC_NO_REASON,
          mk_backtrace_state buffer' (max_depth state) (count state + 1))
  else Some (_URC_NO_REASON, state).

(** [_Unwind_Backtrace] of the platform's unwind library: the callback is
    called on each frame from the innermost on, until it answers something
    other than [_URC_NO_REASON] or the stack ends.  The second component
    counts the calls of the callback. *)
Fixpoint _Unwind_Backtrace {S : Type}
    (trace : Z -> S -> option (_Unwind_Reason_Code * S))
    (frames : list Z) (arg : S) : option (_Unwind_Reason_Code * nat * S) :=
  match frames with
  | [] => Some (_URC_END_OF_STACK, O, arg)
  | pc :: frames' =>
      '(code, arg') ← trace pc arg;
      match code with
      | _URC_NO_REASON =>
          '(code', calls, arg'') ← _Unwind_Backtrace trace frames' arg';
          Some (code', Datatypes.S calls, arg'')
      | _ => Some (_URC_FATAL_PHASE1_ERROR, 1%nat, arg')
      end
  end.

(** The buffer after the call and the returned count. *)
Definition capture_backtrace (frames : list Z) (buffer : list Z) (max_depth : Z)
  : option (list Z * Z) :=
  let state := mk_backtrace_state buffer max_depth 0 in
  '(_, _, mk_backtrace_state buffer _ count) ←
    _Unwind_Backtrace unwind_callback frames state;
  Some (buffer, count).

(** ** crash_signal_handler *)

Definition LF : char := "010"%char.

(** [for (int i = 0; i < depth; i++)] of the handler; [num_buf] is handed
    from one iteration to the next. *)
Fixpoint write_frames (fuel : nat) (fd depth i : Z) (num_buf : list char)
  : M (list char) :=
  match fuel with
  | O => lift None
  | S fuel' =>
      if decide (i < depth) then
        safe_write fd (Some (cstr "0x"));;
        frames ← gets g_backtrace_buffer;
        pc ← lift (load frames i);
        '(num_buf, _) ← lift (safe_itoa (to_ulong pc) num_buf 16);
        safe_write fd (Some num_buf);;
        safe_write fd (Some [LF; NUL]);;
        write_frames fuel' fd depth (i + 1) num_buf
      else mret num_buf
  end.

(** [for (int i = 0; i < g_num_signals; i++)
       if (g_signals[i] == sig) { sig_index = i; break; }] *)
Fixpoint find_sig_index (fuel : nat) (sig i sig_index : Z) : option Z :=
  match fuel with
  | O => None
  | S fuel' =>
      if decide (i < g_num_signals) then
        s ← load g_signals i;
        if decide (s = sig) then Some i
        else find_sig_index fuel' sig (i + 1) sig_index
      else Some sig_index
  end.

Definition crash_signal_handler (sig : Z) (info : siginfo_t) : M unit :=
  path ← gets g_crash_file_path;
  fd ← sys_open path (Z.lor O_WRONLY (Z.lor O_CREAT O_TRUNC)) 420;
  fallback ← gets g_crash_fd;
  let fd := if decide (fd < 0) then fallback else fd in
  (if decide (0 <= fd) then
     let num_buf := replicate (Z.to_nat INT_BUFFER_SIZE) indeterminate in
     safe_write fd (Some (get_signal_name sig));;
     safe_write fd (Some [LF; NUL]);;
     safe_write fd (Some (cstr "0x"));;
     '(num_buf, _) ← lift (safe_itoa (to_ulong (si_addr info)) num_buf 16);
     safe_write fd (Some num_buf);;
     safe_write fd (Some [LF; NUL]);;
     frames ← gets k_frames;
     backtrace ← gets g_backtrace_buffer;
     '(backtrace, depth) ← lift (capture_backtrace frames backtrace MAX_BACKTRACE_DEPTH);
     modify (set_backtrace_buffer backtrace);;
     write_frames (S (Z.to_nat depth)) fd depth 0 num_buf;;
     fallback ← gets g_crash_fd;
     if decide (fd <> fallback) then sys_close fd else mret tt
   else mret tt);;
  sig_index ← lift (find_sig_index (S (Z.to_nat g_num_signals)) sig 0 (-1));
  (if decide (0 <= sig_index) then
     old_handlers ← gets g_old_handlers;
     old ← lift (load old_handlers sig_index);
     sys_sigaction sig (Some old);;
     mret tt
   else mret tt);;
  sys_raise sig.

(** ** crash_handler_init *)

(** [for (int i = 0; i < g_num_signals; i++)
       sigaction(g_signals[i], &sa, &g_old_handlers[i]);] *)
Fixpoint install_handlers (fuel : nat) (sa : sigaction_t) (i : Z) : M unit :=
  match fuel with
  | O => lift None
  | S fuel' =>
      if decide (i < g_num_signals) then
        sig ← lift (load g_signals i);
        old ← sys_sigaction sig (Some sa);
        match old with
        | Some old =>
            old_handlers ← gets g_old_handlers;
            old_handlers ← lift (store old_handlers i old);
            modify (set_old_handlers old_handlers)
        | None => mret tt
        end;;
        install_handlers fuel' sa (i + 1)
      else mret tt
  end.

Definition crash_handler_init (crash_file_path : list char) : M unit :=
  dest ← gets g_crash_file_path;
  '(dest, _) ← lift (safe_strcpy dest crash_file_path (Z.of_nat (length dest)));
  modify (set_crash_file_path dest);;
  fd ← sys_open crash_file_path (Z.lor O_WRONLY (Z.lor O_CREAT O_TRUNC)) 420;
  modify (set_crash_fd fd);;
  let sa := {| sa_sigaction := fn_crash_signal_handler;
               sa_flags := Z.lor SA_SIGINFO SA_ONSTACK;
               sa_mask := [] |} in
  install_handlers (S (Z.to_nat g_num_signals)) sa 0.

(** ** Reading the trace *)

(** The bytes handed to [write] on descriptor [fd], in order. *)
Definition written (fd : Z) (trace : list event) : list char :=
  mjoin (omap (λ e, match e with
                    | EvWrite fd' data => if decide (fd' = fd) then Some data else None
                    | _ => None
                    end) trace).

(** ** Decoding digit strings (the inverse the round trip is stated with) *)

Definition hex_alphabet : list char := list_ascii_of_string "0123456789abcdef".

Definition lower_hex (c : char) : Prop := c ∈ hex_alphabet.

Fixpoint index_of (c : char) (l : list char) (i : Z) : option Z :=
  match l with
  | [] => None
  | x :: l' => if decide (x = c) then Some i else index_of c l' (i + 1)
  end.

Definition digit_value (c : char) : option Z := index_of c hex_alphabet 0.

(** Most significant digit first: each digit multiplies what was read so
    far by the base. *)
Fixpoint parse_digits_from (base acc : Z) (s : list char) : option Z :=
  match s with
  | [] => Some acc
  | c :: s' =>
      d ← digit_value c;
      if decide (d < base) then parse_digits_from base (acc * base + d) s'
      else None
  end.

Definition parse_digits (base : Z) (s : list char) : option Z :=
  match s with
  | [] => None
  | _ => parse_digits_from base 0 s
  end.

(** The digits of [v] in base [b], least significant first, at most [n] of
    them: what the first loop of [safe_itoa] leaves in [temp]. *)
Fixpoint low_digits (n : nat) (b v : Z) : list Z :=
  match n with
  | O => []
  | S n' => if decide (0 < v) then v mod b :: low_digits n' b (v / b) else []
  end.

Definition digit_char (d : Z) : char := default NUL (load digits d).

(** What [safe_itoa] writes before the terminator: the single digit 0, or
    the digits [temp] received, last one first. *)
Definition itoa_text (b v : Z) : list char :=
  if decide (v = 0) then ["0"%char]
  else reverse (digit_char <$> low_digits 23 b v).

(** [ds] is the text of [v] in base [b]: digits of the lowercase alphabet,
    most significant first, decoding to [v], without a leading zero. *)
Definition text_of (b v : Z) (ds : list char) : Prop :=
  parse_digits b ds = Some v
  /\ Forall lower_hex ds
  /\ (head ds = Some "0"%char -> ds = ["0"%char]).

(** ** What a bounded copy has to keep *)

(** Between [dest] before and [dest'] after, no byte at index [c] or beyond
    was written. *)
Definition writes_within (c : Z) (dest dest' : list char) : Prop :=
  length dest' = length dest
  /\ forall k : nat, c <= Z.of_nat k -> dest' !! k = dest !! k.

(** The copy of the string [s] (stored as [s], its terminator and whatever
    follows) into [dest] with capacity [c]: it returns, wrote only inside
    the first [c] bytes, copied [n <= c - 1] characters of [s], and put a
    terminator inside the first [c] bytes. *)
Definition bounded_copy_ok (dest s rest : list char) (c : Z) : Prop :=
  exists (dest' : list char) (n : nat),
    safe_strcpy dest (s ++ NUL :: rest) c = Some (dest', Z.of_nat n)
    /\ writes_within c dest dest'
    /\ Z.of_nat n <= c - 1
    /\ take n dest' = take n s
    /\ Z.of_nat n < c
    /\ dest' !! n = Some NUL.

(** ** What a capture has to record *)

(** The program counters that are not zero, in walk order, up to [d] of
    them. *)
Definition recorded_pcs (d : Z) (frames : list Z) : list Z :=
  take (Z.to_nat d) (filter (fun pc : Z => pc <> 0%Z) frames).

(** ** What the handler has to report *)

Definition log_all (es : list event) (s : state) : state :=
  mk_state (g_crash_file_path s) (g_crash_fd s) (g_write_buffer s)
    (g_backtrace_buffer s) (g_old_handlers s) (k_actions s) (k_open s)
    (k_frames s) (k_trace s ++ es).

(** The name of a signal without its terminator. *)
Definition signal_text (sig : Z) : list char :=
  take (length (get_signal_name sig) - 1) (get_signal_name sig).

(** The three writes of one address line. *)
Definition line_events (fd : Z) (v : Z) : list event :=
  [EvWrite fd (list_ascii_of_string "0x");
   EvWrite fd (itoa_text 16 (to_ulong v));
   EvWrite fd [LF]].

Definition frames_events (fd : Z) (pcs : list Z) : list event :=
  pcs ≫= line_events fd.

Definition report_events (fd sig addr : Z) (pcs : list Z) : list event :=
  [EvWrite fd (signal_text sig); EvWrite fd [LF]]
  ++ line_events fd addr ++ frames_events fd pcs.

(** What the next call of [open] returns. *)
Definition next_open (s : state) : Z :=
  match k_open s with
  | [] => -1
  | r :: _ => r
  end.

(** The descriptor the handler writes to: the fresh one, or the fallback. *)
Definition report_fd (s : state) : Z :=
  if decide (next_open s < 0) then g_crash_fd s else next_open s.

(** The position of [sig] in [g_signals]. *)
Definition signal_index (sig : Z) : option nat :=
  fst <$> list_find (fun x => x = sig) g_signals.

Definition open_flags : Z := Z.lor O_WRONLY (Z.lor O_CREAT O_TRUNC).

(** The events of the write phase: nothing without a usable descriptor;
    otherwise the report, and the close of a descriptor that is not the
    fallback. *)
Definition report_part (sig : Z) (info : siginfo_t) (s : state) : list event :=
  if decide (0 <= report_fd s) then
    report_events (report_fd s) sig (si_addr info)
      (recorded_pcs MAX_BACKTRACE_DEPTH (k_frames s))
    ++ (if decide (report_fd s <> g_crash_fd s) then [EvClose (report_fd s)] else [])
  else [].

(** The action the handler restores for [sig]: the entry of the
    Original-Handler Table at the position of [sig] in [g_signals]. *)
Definition restored_action (sig : Z) (s : state) : option sigaction_t :=
  i ← signal_index sig; g_old_handlers s !! i.

Definition restore_part (sig : Z) (s : state) : list event :=
  match restored_action sig s with
  | Some old => [EvSigaction sig (Some old)]
  | None => []
  end.

Definition handler_events (sig : Z) (info : siginfo_t) (p : list char) (s : state)
  : list event :=
  EvOpen p open_flags 420 (next_open s)
  :: report_part sig info s ++ restore_part sig s ++ [EvRaise sig].

(** The state one execution of the handler leaves. *)
Definition handler_result (sig : Z) (info : siginfo_t) (p : list char) (s : state)
  : state :=
  mk_state (g_crash_file_path s) (g_crash_fd s) (g_write_buffer s)
    (if decide (0 <= report_fd s) then
       recorded_pcs MAX_BACKTRACE_DEPTH (k_frames s)
       ++ drop (length (recorded_pcs MAX_BACKTRACE_DEPTH (k_frames s)))
            (g_backtrace_buffer s)
     else g_backtrace_buffer s)
    (g_old_handlers s)
    (match restored_action sig s with
     | Some old => <[sig := old]> (k_actions s)
     | None => k_actions s
     end)
    (tail (k_open s)) (k_frames s)
    (k_trace s ++ handler_events sig info p s).

(** The registration state a well-formed process has: the path buffer
    holds a string, and the two tables have their declared sizes. *)
Definition registration_ok (s : state) : Prop :=
  is_Some (c_string (g_crash_file_path s))
  /\ length (g_backtrace_buffer s) = Z.to_nat MAX_BACKTRACE_DEPTH
  /\ length (g_old_handlers s) = Z.to_nat g_num_signals.

(** The new events of [s'] with respect to [s]. *)
Definition events_since (s s' : state) : list event :=
  drop (length (k_trace s)) (k_trace s').

(** The artifact: the name line, the address line, one line per frame. *)
Definition report_text (name addr_text : list char) (frame_texts : list (list char))
  : list char :=
  name ++ [LF]
  ++ list_ascii_of_string "0x" ++ addr_text ++ [LF]
  ++ mjoin ((fun t => list_ascii_of_string "0x" ++ t ++ [LF]) <$> frame_texts).

(** [name] is the canonical name of [sig]. *)
Definition canonical_name (sig : Z) (name : list char) : Prop :=
  (sig = SIGSEGV /\ name = list_ascii_of_string "SIGSEGV")
  \/ (sig = SIGABRT /\ name = list_ascii_of_string "SIGABRT")
  \/ (sig = SIGBUS /\ name = list_ascii_of_string "SIGBUS")
  \/ (sig = SIGFPE /\ name = list_ascii_of_string "SIGFPE")
  \/ (sig = SIGILL /\ name = list_ascii_of_string "SIGILL")
  \/ (sig = SIGTRAP /\ name = list_ascii_of_string "SIGTRAP")
  \/ ((sig ∉ g_signals) /\ name = list_ascii_of_string "UNKNOWN").

Definition is_write (e : event) : Prop :=
  match e with
  | EvWrite _ _ => True
  | _ => False
  end.

Definition is_sigaction (e : event) : Prop :=
  match e with
  | EvSigaction _ _ => True
  | _ => False
  end.

(** What [crash_handler_init] installs for every monitored signal. *)
Definition crash_sigaction : sigaction_t :=
  {| sa_sigaction := fn_crash_signal_handler;
     sa_flags := Z.lor SA_SIGINFO SA_ONSTACK;
     sa_mask := [] |}.

(** One iteration of the installation loop: the handler becomes the
    action of [sig], and the action [sig] had goes to entry [i] of the
    table. *)
Definition install_one (sa : sigaction_t) (i : nat) (sig : Z) (s : state) : state :=
  set_old_handlers (<[i := action_of s sig]> (g_old_handlers s))
    (set_actions (<[sig := sa]> (k_actions s))
       (log (EvSigaction sig (Some sa)) s)).

Fixpoint install_all (sa : sigaction_t) (i : nat) (sigs : list Z) (s : state)
  : state :=
  match sigs with
  | [] => s
  | sig :: sigs' => install_all sa (S i) sigs' (install_one sa i sig s)
  end.

(** The state [crash_handler_init] leaves, for a path whose characters are
    [text]. *)
Definition init_result (text : list char) (s : state) : state :=
  install_all crash_sigaction 0 g_signals
    (set_crash_fd (next_open s)
       (log (EvOpen text open_flags 420 (next_open s))
          (set_open (tail (k_open s))
             (set_crash_file_path
                (take 255 text
                 ++ NUL :: drop (S (length (take 255 text))) (g_crash_file_path s))
                s)))).

(** A state [crash_handler_init] can run in: the globals have their
    declared sizes. *)
Definition armable (s : state) : Prop :=
  length (g_crash_file_path s) = 256%nat
  /\ length (g_backtrace_buffer s) = Z.to_nat MAX_BACKTRACE_DEPTH
  /\ length (g_old_handlers s) = Z.to_nat g_num_signals.

(** The number of calls of [write] in a trace. *)
Fixpoint count_writes (es : list event) : nat :=
  match es with
  | [] => 0
  | EvWrite _ _ :: es' => S (count_writes es')
  | _ :: es' => count_writes es'
  end.

Example safe_itoa_255 :
  (safe_itoa 255 (replicate 24 indeterminate) 16 ≫= λ r, c_string r.1)
  = Some (list_ascii_of_string "ff").
Proof. vm_compute. reflexivity. Qed.

Example safe_itoa_deadbeef :
  (safe_itoa 3735928559 (replicate 24 indeterminate) 16 ≫= λ r, c_string r.1)
  = Some (list_ascii_of_string "deadbeef").
Proof. vm_compute. reflexivity. Qed.

Example safe_itoa_binary_10 :
  (safe_itoa 10 (replicate 24 indeterminate) 2 ≫= λ r, c_string r.1)
  = Some (list_ascii_of_string "1010").
Proof. vm_compute. reflexivity. Qed.

Example safe_strcpy_truncates :
  (safe_strcpy (replicate 6 indeterminate) (cstr "abcdefgh") 4)
  = Some (list_ascii_of_string "abc" ++ [NUL; indeterminate; indeterminate], 3).
Proof. vm_compute. reflexivity. Qed.

(** ** Arrays *)

Lemma load_nat {A} (a : list A) (k : nat) : load a (Z.of_nat k) = a !! k.
Proof. unfold load. case_decide; [by rewrite Nat2Z.id | lia]. Qed.

Lemma store_nat {A} (a : list A) (k : nat) (x : A) :
  (k < length a)%nat -> store a (Z.of_nat k) x = Some (<[k := x]> a).
Proof. intros H. unfold store. case_decide; [by rewrite Nat2Z.id | lia]. Qed.

Lemma take_S_insert {A} (a : list A) (k : nat) (x : A) :
  (k < length a)%nat -> take (S k) (<[k := x]> a) = take k a ++ [x].
Proof.
  intros H. rewrite (take_S_r _ _ x).
  - by rewrite take_insert_ge.
  - by apply list_lookup_insert_eq.
Qed.

Lemma drop_after_insert {A} (a : list A) (k n : nat) (x : A) :
  (k < n)%nat -> drop n (<[k := x]> a) = drop n a.
Proof. intros H. by apply drop_insert_lt. Qed.

(** An array written at [k] after a prefix it already agrees with. *)
Lemma insert_middle {A} (pre : list A) (a : list A) (x : A) :
  (length pre < length a)%nat -> take (length pre) a = pre ->
  <[length pre := x]> a = pre ++ x :: drop (S (length pre)) a.
Proof.
  intros Hlen Hpre.
  rewrite <- (take_drop (length pre) a) at 1. rewrite Hpre.
  rewrite insert_app_r_alt by lia. rewrite Nat.sub_diag.
  destruct (drop (length pre) a) as [|y rest] eqn:E.
  - apply (f_equal length) in E. rewrite length_drop in E. simpl in E. lia.
  - simpl. do 2 f_equal.
    rewrite <- (Nat.add_1_r (length pre)), <- drop_drop, E. reflexivity.
Qed.

(** ** The digits of safe_itoa *)

Lemma to_ulong_small (x : Z) : 0 <= x < 2 ^ ULONG_BITS -> to_ulong x = x.
Proof. intros H. unfold to_ulong. by apply Z.mod_small. Qed.

Lemma to_ulong_base (b : Z) : 2 <= b <= 16 -> to_ulong b = b.
Proof. intros H. apply to_ulong_small. unfold ULONG_BITS. lia. Qed.

Lemma to_ulong_range (x : Z) : 0 <= to_ulong x < 2 ^ ULONG_BITS.
Proof. unfold to_ulong, ULONG_BITS. apply Z.mod_pos_bound. lia. Qed.

Lemma digit_char_spec (d : Z) :
  0 <= d < 16 ->
  load digits d = Some (digit_char d)
  /\ digit_value (digit_char d) = Some d
  /\ lower_hex (digit_char d)
  /\ (digit_char d = "0"%char -> d = 0).
Proof.
  intros H. rewrite <- (Z2Nat.id d) by lia.
  assert (Z.to_nat d < 16)%nat as Hn by lia.
  generalize dependent (Z.to_nat d). intros n Hn.
  unfold lower_hex.
  do 16 (destruct n as [|n];
         [split; [reflexivity|]; split; [reflexivity|]; split;
          [apply (bool_decide_unpack _); vm_compute; exact I
          | vm_compute; intros E; first [reflexivity | discriminate E]] |]).
  lia.
Qed.

Lemma lower_hex_not_NUL (c : char) : lower_hex c -> c <> NUL.
Proof.
  unfold lower_hex. intros H ->. revert H.
  apply (bool_decide_unpack _). vm_compute. exact I.
Qed.

Lemma low_digits_zero (n : nat) (b : Z) : low_digits n b 0 = [].
Proof. by destruct n. Qed.

Lemma low_digits_range (b : Z) (Hb : 2 <= b <= 16) (n : nat) :
  forall v, Forall (fun d => 0 <= d < 16) (low_digits n b v).
Proof.
  induction n as [|n IH]; intros v; simpl; [constructor|].
  case_decide; constructor; [|apply IH].
  pose proof (Z.mod_pos_bound v b). lia.
Qed.

Lemma low_digits_at_most (n : nat) (b : Z) :
  forall v, (length (low_digits n b v) <= n)%nat.
Proof.
  induction n as [|n IH]; intros v; simpl; [lia|].
  case_decide; simpl; [|lia]. specialize (IH (v `div` b)). lia.
Qed.

(** A value below [b ^ k] has at most [k] digits. *)
Lemma low_digits_length (b : Z) (Hb : 2 <= b) (k : nat) :
  forall (n : nat) v, 0 <= v < b ^ Z.of_nat k -> (length (low_digits n b v) <= k)%nat.
Proof.
  induction k as [|k IH]; intros n v Hv.
  - assert (v = 0) as -> by (simpl in Hv; lia). rewrite low_digits_zero. simpl. lia.
  - destruct n as [|n]; simpl; [lia|]. case_decide; simpl; [|lia].
    apply le_n_S, IH. rewrite Nat2Z.inj_succ, Z.pow_succ_r in Hv by lia.
    split; [apply Z.div_pos; lia|]. apply Z.div_lt_upper_bound; lia.
Qed.

Lemma low_digits_more (b : Z) (Hb : 2 <= b) (k : nat) :
  forall (n : nat) v, 0 <= v < b ^ Z.of_nat k -> (k <= n)%nat ->
    low_digits n b v = low_digits k b v.
Proof.
  induction k as [|k IH]; intros n v Hv Hn.
  - assert (v = 0) as -> by (simpl in Hv; lia). by rewrite !low_digits_zero.
  - destruct n as [|n]; [lia|]. simpl. case_decide; [|done]. f_equal.
    apply IH; [|lia]. rewrite Nat2Z.inj_succ, Z.pow_succ_r in Hv by lia.
    split; [apply Z.div_pos; lia|]. apply Z.div_lt_upper_bound; lia.
Qed.

(** The first loop: [temp] receives the digits from index [k] on. *)
Lemma safe_itoa_fill_spec (b : Z) (Hb : 2 <= b <= 16) (fuel : nat) :
  forall v temp (k : nat),
    0 <= v -> length temp = 24%nat -> (k <= 23)%nat -> (23 - k < fuel)%nat ->
    safe_itoa_fill fuel v b temp (Z.of_nat k)
    = Some (take k temp ++ (digit_char <$> low_digits (23 - k) b v)
              ++ drop (k + length (digit_char <$> low_digits (23 - k) b v)) temp,
            Z.of_nat (k + length (digit_char <$> low_digits (23 - k) b v))).
Proof.
  induction fuel as [|fuel IH]; intros v temp k Hv Hlen Hk Hfuel; [lia|].
  set (cs := digit_char <$> low_digits (23 - k) b v).
  simpl. unfold INT_BUFFER_SIZE. case_decide as Hc.
  - destruct Hc as [Hpos Hlt].
    rewrite to_ulong_base by done. case_decide; [lia|].
    assert (0 <= v `mod` b < 16) as Hd by (pose proof (Z.mod_pos_bound v b); lia).
    destruct (digit_char_spec _ Hd) as (-> & _). simpl.
    rewrite store_nat by lia. simpl.
    replace (Z.of_nat k + 1) with (Z.of_nat (S k)) by lia.
    rewrite IH; [|apply Z.div_pos; lia|by rewrite length_insert|lia|lia].
    subst cs. replace (23 - k)%nat with (S (23 - S k)) by lia.
    simpl. rewrite decide_True by done. simpl.
    rewrite take_S_insert by lia. rewrite drop_after_insert by lia.
    rewrite <- app_assoc. simpl. rewrite <- !plus_n_Sm. reflexivity.
  - assert (cs = []) as ->.
    { subst cs. destruct (decide (0 < v)); [|by assert (v = 0) as -> by lia; rewrite low_digits_zero].
      by replace (23 - k)%nat with 0%nat by lia. }
    simpl. rewrite Nat.add_0_r, take_drop. reflexivity.
Qed.

(** The second loop: the first [i] elements of [temp], last one first. *)
Lemma safe_itoa_emit_spec (temp : list char) (fuel : nat) :
  forall buffer (i j : nat),
    (i <= length temp)%nat -> (j + i <= length buffer)%nat -> (i < fuel)%nat ->
    safe_itoa_emit fuel buffer temp (Z.of_nat i) (Z.of_nat j)
    = Some (take j buffer ++ reverse (take i temp) ++ drop (j + i) buffer,
            Z.of_nat (j + i)).
Proof.
  induction fuel as [|fuel IH]; intros buffer i j Hi Hj Hfuel; [lia|].
  simpl. case_decide as Hc.
  - destruct i as [|i]; [lia|].
    replace (Z.of_nat (S i) - 1) with (Z.of_nat i) by lia.
    rewrite load_nat.
    destruct (lookup_lt_is_Some_2 temp i) as [c Hcz]; [lia|].
    rewrite Hcz. simpl. rewrite store_nat by lia. simpl.
    replace (Z.of_nat j + 1) with (Z.of_nat (S j)) by lia.
    rewrite IH; [|lia|rewrite length_insert; lia|lia].
    rewrite take_S_insert by lia. rewrite drop_after_insert by lia.
    rewrite (take_S_r _ _ _ Hcz), reverse_snoc.
    rewrite <- app_assoc. simpl. rewrite <- !plus_n_Sm. reflexivity.
  - assert (i = 0)%nat as -> by lia. simpl.
    rewrite Nat.add_0_r, take_drop. reflexivity.
Qed.

(** What [safe_itoa] does on a non-zero value, truncating or not. *)
Lemma safe_itoa_nonzero (b : Z) (Hb : 2 <= b <= 16) (v : Z) (buffer : list char) :
  0 < v -> (24 <= length buffer)%nat ->
  let ds := reverse (digit_char <$> low_digits 23 b v) in
  safe_itoa v buffer b
  = Some (ds ++ NUL :: drop (S (length ds)) buffer, Z.of_nat (length ds)).
Proof.
  intros Hv Hlen ds. unfold safe_itoa. rewrite decide_False by lia.
  change (Z.to_nat INT_BUFFER_SIZE) with 24%nat.
  pose proof (safe_itoa_fill_spec b Hb 24 v (replicate 24 indeterminate) 0) as Hfill.
  change (Z.of_nat 0) with 0 in Hfill.
  rewrite Hfill; [|lia|by rewrite length_replicate|lia|lia].
  clear Hfill. change (23 - 0)%nat with 23%nat.
  subst ds.
  pose proof (low_digits_at_most 23 b v) as Hcs.
  rewrite <- (length_fmap digit_char) in Hcs.
  generalize dependent (digit_char <$> low_digits 23 b v). intros cs Hcs.
  cbn -[safe_itoa_emit store replicate take drop]. change 0 with (Z.of_nat 0).
  rewrite (safe_itoa_emit_spec _ 24);
    [|rewrite !length_app; lia|simpl; lia|simpl; lia].
  cbn -[store replicate take drop].
  rewrite !take_0. simpl app. rewrite take_app_length.
  rewrite <- (length_reverse cs) in *.
  generalize dependent (reverse cs). intros ds Hds.
  rewrite store_nat by (rewrite length_app, length_drop; lia).
  cbn -[take drop]. f_equal. f_equal.
  rewrite (insert_middle ds);
    [|rewrite length_app, length_drop; lia|apply take_app_length].
  f_equal. f_equal. rewrite drop_app_ge by lia.
  rewrite drop_drop. f_equal. lia.
Qed.

Lemma safe_itoa_zero (buffer : list char) (b : Z) :
  (2 <= length buffer)%nat ->
  safe_itoa 0 buffer b = Some ("0"%char :: NUL :: drop 2 buffer, 1).
Proof.
  intros H. destruct buffer as [|x [|y rest]]; simpl in H; try lia.
  unfold safe_itoa, store. rewrite decide_True by done.
  rewrite decide_True by (cbn [length]; lia). cbn [mbind option_bind].
  rewrite decide_True by (rewrite length_insert; cbn [length]; lia).
  reflexivity.
Qed.

(** ** Decoding *)

Lemma parse_digits_from_snoc (b acc : Z) (s : list char) (c : char) :
  parse_digits_from b acc (s ++ [c])
  = (acc' ← parse_digits_from b acc s;
     d ← digit_value c;
     if decide (d < b) then Some (acc' * b + d) else None).
Proof.
  revert acc. induction s as [|x s IH]; intros acc; simpl.
  - destruct (digit_value c) as [d|]; simpl; [|done]. by case_decide.
  - destruct (digit_value x) as [d|]; simpl; [|done]. case_decide; [apply IH|done].
Qed.

(** Decoding the digits that fit gives the value back. *)
Lemma parse_low_digits (b : Z) (Hb : 2 <= b <= 16) (n : nat) :
  forall v, 0 <= v < b ^ Z.of_nat n ->
    parse_digits_from b 0 (reverse (digit_char <$> low_digits n b v)) = Some v.
Proof.
  induction n as [|n IH]; intros v Hv.
  - simpl in *. f_equal. lia.
  - simpl. case_decide as Hpos; [|simpl; f_equal; lia].
    rewrite fmap_cons, reverse_cons, parse_digits_from_snoc.
    rewrite Nat2Z.inj_succ, Z.pow_succ_r in Hv by lia.
    rewrite IH by (split; [apply Z.div_pos; lia | apply Z.div_lt_upper_bound; lia]).
    simpl.
    assert (0 <= v `mod` b < 16) as Hd by (pose proof (Z.mod_pos_bound v b); lia).
    destruct (digit_char_spec _ Hd) as (_ & -> & _). simpl.
    rewrite decide_True by (pose proof (Z.mod_pos_bound v b); lia).
    f_equal. pose proof (Z.div_mod v b). lia.
Qed.

Lemma low_digits_lower_hex (b : Z) (Hb : 2 <= b <= 16) (n : nat) (v : Z) :
  Forall lower_hex (reverse (digit_char <$> low_digits n b v)).
Proof.
  apply Forall_reverse, Forall_fmap.
  eapply Forall_impl; [by apply low_digits_range|].
  intros d Hd. simpl. by apply digit_char_spec.
Qed.

(** ** Strings in arrays *)

Lemma scan_nul_spec (s rest : list char) (fuel : nat) :
  forall (k : nat), (k <= length s)%nat -> Forall (fun c => c <> NUL) s ->
    (length s - k < fuel)%nat ->
    scan_nul fuel (s ++ NUL :: rest) (Z.of_nat k) = Some (Z.of_nat (length s)).
Proof.
  induction fuel as [|fuel IH]; intros k Hk Hs Hfuel; [lia|].
  simpl. rewrite load_nat.
  destruct (decide (k = length s)) as [->|Hne].
  - rewrite list_lookup_middle by done. reflexivity.
  - destruct (lookup_lt_is_Some_2 s k) as [c Hc]; [lia|].
    rewrite (lookup_app_l_Some _ _ _ _ Hc). simpl.
    rewrite decide_True by (eapply Forall_lookup_1 in Hs; eauto).
    replace (Z.of_nat k + 1) with (Z.of_nat (S k)) by lia.
    apply IH; [lia|done|lia].
Qed.

Lemma c_strlen_spec (s rest : list char) :
  Forall (fun c => c <> NUL) s ->
  c_strlen (s ++ NUL :: rest) = Some (Z.of_nat (length s)).
Proof.
  intros Hs. unfold c_strlen. change 0 with (Z.of_nat 0).
  apply scan_nul_spec; [lia|done|]. rewrite length_app. simpl. lia.
Qed.

Lemma c_string_spec (s rest : list char) :
  Forall (fun c => c <> NUL) s -> c_string (s ++ NUL :: rest) = Some s.
Proof.
  intros Hs. unfold c_string. rewrite c_strlen_spec by done. simpl.
  by rewrite Nat2Z.id, take_app_length.
Qed.

Lemma Forall_lower_hex_not_NUL (s : list char) :
  Forall lower_hex s -> Forall (fun c => c <> NUL) s.
Proof. intros H. eapply Forall_impl; [exact H|]. apply lower_hex_not_NUL. Qed.

Lemma low_digits_positive (n : nat) (b v : Z) :
  0 < v -> (1 <= length (low_digits (S n) b v))%nat.
Proof. intros H. cbn [low_digits]. rewrite decide_True by done. simpl. lia. Qed.

(** The most significant digit of a value that fits is not zero. *)
Lemma low_digits_last (b : Z) (Hb : 2 <= b) (n : nat) :
  forall v, 0 <= v < b ^ Z.of_nat n -> last (low_digits n b v) <> Some 0.
Proof.
  induction n as [|n IH]; intros v Hv; simpl; [done|].
  case_decide as Hpos; [|done].
  rewrite Nat2Z.inj_succ, Z.pow_succ_r in Hv by lia.
  assert (0 <= v `div` b < b ^ Z.of_nat n) as Hq
    by (split; [apply Z.div_pos; lia | apply Z.div_lt_upper_bound; lia]).
  rewrite last_cons. specialize (IH _ Hq).
  destruct (last (low_digits n b (v `div` b))) as [d|] eqn:E; [done|].
  apply last_None in E.
  destruct (decide (0 < v `div` b)) as [Hq'|Hq'].
  - destruct n as [|n]; simpl in *; [lia|]. by rewrite decide_True in E.
  - assert (v `div` b = 0) as Hz by lia.
    pose proof (Z.div_mod v b). intros [= Hm]. nia.
Qed.

(** [safe_itoa] in closed form, whether the value fits or not. *)
Lemma safe_itoa_run (v b : Z) (buffer : list char) :
  2 <= b <= 16 -> 0 <= v -> (24 <= length buffer)%nat ->
  safe_itoa v buffer b
  = Some (itoa_text b v ++ NUL :: drop (S (length (itoa_text b v))) buffer,
          Z.of_nat (length (itoa_text b v))).
Proof.
  intros Hb Hv Hlen. unfold itoa_text. case_decide as Hz.
  - subst v. apply safe_itoa_zero. lia.
  - apply safe_itoa_nonzero; [done|lia|done].
Qed.

(** The text of a value of at most [k] digits, [k] within the capacity of
    [temp]. *)
Lemma itoa_text_fits (k : nat) (v b : Z) :
  2 <= b <= 16 -> 0 <= v < b ^ Z.of_nat k -> (k <= 23)%nat ->
  text_of b v (itoa_text b v)
  /\ (1 <= length (itoa_text b v) <= Nat.max 1 k)%nat
  /\ (v = 0 -> itoa_text b v = ["0"%char]).
Proof.
  intros Hb Hv Hk. unfold itoa_text. destruct (decide (v = 0)) as [->|Hnz].
  - split; [|simpl; split; [lia|done]].
    split; [|split; [|done]].
    + simpl. change (digit_value "0"%char) with (Some 0). simpl.
      by rewrite decide_True by lia.
    + repeat constructor.
  - assert (0 < v) as Hpos by lia.
    assert (0 <= v < b ^ Z.of_nat 23) as Hv23.
    { split; [lia|]. eapply Z.lt_le_trans; [apply Hv|].
      apply Z.pow_le_mono_r; lia. }
    pose proof (low_digits_positive 22 b v Hpos) as Hone.
    change (S 22) with 23%nat in Hone.
    split; [split; [|split]|split; [|done]].
    + destruct (reverse (digit_char <$> low_digits 23 b v)) as [|c ds] eqn:E.
      * apply (f_equal length) in E.
        rewrite length_reverse, length_fmap in E. cbn [length] in E. lia.
      * unfold parse_digits. rewrite <- E. by apply parse_low_digits.
    + by apply low_digits_lower_hex.
    + rewrite head_reverse, fmap_last. intros Hhead. exfalso.
      pose proof (low_digits_last b ltac:(lia) 23 v Hv23) as Hlast.
      pose proof (low_digits_range b Hb 23 v) as Hrange.
      destruct (last (low_digits 23 b v)) as [d|] eqn:E; [|done].
      simpl in Hhead. injection Hhead as Hd.
      apply last_Some_elem_of in E.
      rewrite Forall_forall in Hrange. specialize (Hrange d E).
      apply (digit_char_spec d Hrange) in Hd. congruence.
    + rewrite length_reverse, length_fmap.
      rewrite (low_digits_more b ltac:(lia) k 23 v Hv Hk) in Hone |- *.
      pose proof (low_digits_length b ltac:(lia) k k v Hv). lia.
Qed.

(** [safe_itoa] on a value of at most [k] digits, [k] within the capacity
    of [temp]: the text of the value, its terminator, and the rest of the
    buffer as it was. *)
Lemma safe_itoa_fits (k : nat) (v b : Z) (buffer : list char) :
  2 <= b <= 16 -> 0 <= v < b ^ Z.of_nat k -> (k <= 23)%nat ->
  (24 <= length buffer)%nat ->
  exists ds : list char,
    safe_itoa v buffer b
    = Some (ds ++ NUL :: drop (S (length ds)) buffer, Z.of_nat (length ds))
    /\ text_of b v ds
    /\ (1 <= length ds <= Nat.max 1 k)%nat
    /\ (v = 0 -> ds = ["0"%char]).
Proof.
  intros Hb Hv Hk Hlen. exists (itoa_text b v).
  split; [apply safe_itoa_run; (done || lia)|].
  by apply itoa_text_fits.
Qed.

(** In base 16 a value of the [unsigned long] range always fits. *)
Lemma itoa_text_hex (v : Z) :
  0 <= v < 2 ^ ULONG_BITS ->
  text_of 16 v (itoa_text 16 v) /\ (1 <= length (itoa_text 16 v) <= 16)%nat.
Proof.
  intros Hv. unfold ULONG_BITS in Hv.
  destruct (itoa_text_fits 16 v 16) as (Ht & Hl & _); [lia|simpl; lia|lia|].
  split; [done|lia].
Qed.

(** C4: for a non-negative [v] and a base [b] from 2 to 16, when [v] has at
    most [INT_BUFFER_SIZE - 1] digits in base [b] (that is, [v] is below
    [b ^ (INT_BUFFER_SIZE - 1)]), [safe_itoa] writes digits of the lowercase
    hexadecimal alphabet followed by the terminator, decoding them most
    significant digit first in base [b] gives [v] back, and zero is written
    as the single digit 0. *)
Theorem safe_itoa_round_trip (v b : Z) (buffer : list char) :
  0 <= v -> 2 <= b <= 16 -> v < b ^ (INT_BUFFER_SIZE - 1) ->
  INT_BUFFER_SIZE <= Z.of_nat (length buffer) ->
  exists ds : list char,
    safe_itoa v buffer b
    = Some (ds ++ NUL :: drop (S (length ds)) buffer, Z.of_nat (length ds))
    /\ c_string (ds ++ NUL :: drop (S (length ds)) buffer) = Some ds
    /\ parse_digits b ds = Some v
    /\ Forall lower_hex ds
    /\ (v = 0 -> ds = ["0"%char]).
Proof.
  intros Hv Hb Hfit Hlen. unfold INT_BUFFER_SIZE in *.
  destruct (safe_itoa_fits 23 v b buffer) as (ds & Hrun & (Hparse & Hhex & _) & _ & Hzero);
    [done|split; [done|exact Hfit]|lia|lia|].
  exists ds. split; [done|]. split; [|done].
  by apply c_string_spec, Forall_lower_hex_not_NUL.
Qed.

Lemma safe_itoa_round_trip_witness :
  exists ds : list char,
    safe_itoa 48879 (replicate 24 indeterminate) 16
    = Some (ds ++ NUL :: drop (S (length ds)) (replicate 24 indeterminate),
            Z.of_nat (length ds))
    /\ c_string (ds ++ NUL :: drop (S (length ds)) (replicate 24 indeterminate))
       = Some ds
    /\ parse_digits 16 ds = Some 48879
    /\ Forall lower_hex ds
    /\ (48879 = 0 -> ds = ["0"%char]).
Proof.
  apply (safe_itoa_round_trip 48879 16 (replicate 24 indeterminate));
    [lia | lia | reflexivity | vm_compute; discriminate].
Defined.

(** C10: in base 16 no unsigned 64-bit value is truncated: it has at most 16
    digits, fewer than the [INT_BUFFER_SIZE - 1 = 23] that [temp] can hold,
    so the string written is the whole text of the value, and the count
    returned is the length of that string, the index of its terminator. *)
Theorem safe_itoa_hex_complete (v : Z) (buffer : list char) :
  0 <= v < 2 ^ ULONG_BITS ->
  INT_BUFFER_SIZE <= Z.of_nat (length buffer) ->
  exists (ds buffer' : list char) (n : Z),
    safe_itoa v buffer 16 = Some (buffer', n)
    /\ c_string buffer' = Some ds
    /\ text_of 16 v ds
    /\ Z.of_nat (length ds) <= 16 < INT_BUFFER_SIZE - 1
    /\ INT_BUFFER_SIZE - 1 = 23
    /\ n = Z.of_nat (length ds)
    /\ c_strlen buffer' = Some n
    /\ load buffer' n = Some NUL.
Proof.
  intros Hv Hlen. unfold INT_BUFFER_SIZE, ULONG_BITS in *.
  destruct (safe_itoa_fits 16 v 16 buffer) as (ds & Hrun & Htext & Hcount & _);
    [lia|simpl; lia|lia|lia|].
  exists ds, (ds ++ NUL :: drop (S (length ds)) buffer), (Z.of_nat (length ds)).
  pose proof (Forall_lower_hex_not_NUL ds (proj1 (proj2 Htext))) as Hnn.
  split; [done|]. split; [by apply c_string_spec|]. split; [done|].
  split; [lia|]. split; [done|]. split; [done|].
  split; [by apply c_strlen_spec|].
  rewrite load_nat. by apply list_lookup_middle.
Qed.

Lemma safe_itoa_hex_complete_witness :
  exists (ds buffer' : list char) (n : Z),
    safe_itoa 18446744073709551615 (replicate 24 indeterminate) 16
    = Some (buffer', n)
    /\ c_string buffer' = Some ds
    /\ text_of 16 18446744073709551615 ds
    /\ Z.of_nat (length ds) <= 16 < INT_BUFFER_SIZE - 1
    /\ INT_BUFFER_SIZE - 1 = 23
    /\ n = Z.of_nat (length ds)
    /\ c_strlen buffer' = Some n
    /\ load buffer' n = Some NUL.
Proof.
  apply (safe_itoa_hex_complete 18446744073709551615 (replicate 24 indeterminate));
    [vm_compute; split; [discriminate | reflexivity] | vm_compute; discriminate].
Defined.

(** ** safe_strcpy *)

(** The loop from index [k] on, [n] being where it stops. *)
Lemma safe_strcpy_loop_spec (s rest : list char) (c : Z) (n : nat) (fuel : nat) :
  Forall (fun x => x <> NUL) s ->
  Z.of_nat n = Z.min (Z.of_nat (length s)) (c - 1) ->
  forall (dest : list char) (k : nat),
    (k <= n)%nat -> (n <= length dest)%nat -> (n - k < fuel)%nat ->
    safe_strcpy_loop fuel dest (s ++ NUL :: rest) c (Z.of_nat k)
    = Some (take k dest ++ drop k (take n s) ++ drop n dest, Z.of_nat n).
Proof.
  intros Hs Hn. induction fuel as [|fuel IH]; intros dest k Hk Hdest Hfuel; [lia|].
  cbn [safe_strcpy_loop]. rewrite load_nat.
  assert (drop k (take k s) = []) as Hnil
    by (apply drop_ge; rewrite length_take; lia).
  destruct (decide (k < length s)%nat) as [Hlt|Hge].
  - destruct (lookup_lt_is_Some_2 s k Hlt) as [x Hx].
    rewrite (lookup_app_l_Some _ _ _ _ Hx). cbn [mbind option_bind].
    assert (x <> NUL) as Hnn by (eapply Forall_lookup_1 in Hs; eauto).
    case_decide as Hc.
    + assert (k < n)%nat as Hkn by lia.
      rewrite store_nat by lia. cbn [mbind option_bind].
      replace (Z.of_nat k + 1) with (Z.of_nat (S k)) by lia.
      rewrite IH; [|lia|rewrite length_insert; lia|lia].
      rewrite take_S_insert by lia. rewrite drop_after_insert by lia.
      rewrite <- app_assoc. do 2 f_equal. cbn [app].
      rewrite (drop_S (take n s) x k) by (by rewrite lookup_take_lt by lia).
      reflexivity.
    + assert (~ Z.of_nat k < c - 1) as Hstop by (intros ?; by apply Hc).
      assert (k = n) as -> by lia. rewrite Hnil; cbn [app]; by rewrite take_drop.
  - assert (k = length s) as -> by lia. assert (n = length s) as -> by lia.
    rewrite list_lookup_middle by done. cbn [mbind option_bind].
    rewrite decide_False by (intros [H _]; by apply H).
    rewrite Hnil; cbn [app]; by rewrite take_drop.
Qed.

(** [safe_strcpy] with a capacity of at least one byte, in closed form. *)
Lemma safe_strcpy_spec (dest s rest : list char) (c : Z) (n : nat) :
  Forall (fun x => x <> NUL) s ->
  1 <= c <= Z.of_nat (length dest) ->
  Z.of_nat n = Z.min (Z.of_nat (length s)) (c - 1) ->
  safe_strcpy dest (s ++ NUL :: rest) c
  = Some (take n s ++ NUL :: drop (S n) dest, Z.of_nat n).
Proof.
  intros Hs Hc Hn. unfold safe_strcpy.
  rewrite decide_False by (unfold INT_MIN; lia).
  change 0 with (Z.of_nat 0).
  rewrite (safe_strcpy_loop_spec s rest c n) by (done || lia || (rewrite length_app; simpl; lia)).
  cbn [mbind option_bind]. rewrite take_0, drop_0. cbn [app].
  assert (length (take n s) = n) as Hlen by (rewrite length_take; lia).
  rewrite store_nat by (rewrite length_app, length_drop; lia).
  cbn [mbind option_bind]. do 2 f_equal.
  rewrite <- Hlen at 1.
  rewrite insert_middle;
    [|rewrite length_app, length_drop; lia|apply take_app_length].
  rewrite Hlen. do 2 f_equal.
  rewrite drop_app_ge by lia. rewrite drop_drop, Hlen. f_equal. lia.
Qed.

(** C5, as the code has it: for every string [s] and every capacity [c] of
    at least one byte, [safe_strcpy] leaves every byte of the destination
    from index [c] on as it was, copies the first [min (length s) (c - 1)]
    characters of [s], and writes the terminator right after them, inside
    the first [c] bytes. *)
Theorem safe_strcpy_bounded (dest s rest : list char) (c : Z) :
  Forall (fun x => x <> NUL) s ->
  1 <= c <= Z.of_nat (length dest) ->
  bounded_copy_ok dest s rest c
  /\ exists n : nat,
       Z.of_nat n = Z.min (Z.of_nat (length s)) (c - 1)
       /\ safe_strcpy dest (s ++ NUL :: rest) c
          = Some (take n s ++ NUL :: drop (S n) dest, Z.of_nat n).
Proof.
  intros Hs Hc.
  assert (exists n : nat, Z.of_nat n = Z.min (Z.of_nat (length s)) (c - 1))
    as [n Hn] by (exists (Z.to_nat (Z.min (Z.of_nat (length s)) (c - 1))); lia).
  pose proof (safe_strcpy_spec dest s rest c n Hs Hc Hn) as Hrun.
  assert (length (take n s) = n) as Hlen by (rewrite length_take; lia).
  split; [|by exists n].
  exists (take n s ++ NUL :: drop (S n) dest), n.
  split; [done|]. split; [split|].
  - rewrite length_app, Hlen. cbn [length]. rewrite length_drop. lia.
  - intros k Hk. rewrite lookup_app_r by lia. rewrite Hlen.
    replace (k - n)%nat with (S (k - S n)) by lia. cbn [lookup list_lookup].
    etrans; [apply lookup_drop|]. f_equal. lia.
  - split; [lia|]. split; [|split; [lia|]].
    + rewrite take_app_le by lia. rewrite take_take. f_equal. lia.
    + rewrite <- Hlen at 1. by apply list_lookup_middle.
Qed.

Lemma safe_strcpy_bounded_witness :
  bounded_copy_ok (replicate 4 indeterminate) (list_ascii_of_string "abcdefgh") [] 4
  /\ exists n : nat,
       Z.of_nat n = Z.min (Z.of_nat (length (list_ascii_of_string "abcdefgh"))) (4 - 1)
       /\ safe_strcpy (replicate 4 indeterminate)
            (list_ascii_of_string "abcdefgh" ++ NUL :: []) 4
          = Some (take n (list_ascii_of_string "abcdefgh")
                    ++ NUL :: drop (S n) (replicate 4 indeterminate),
                  Z.of_nat n).
Proof.
  apply (safe_strcpy_bounded (replicate 4 indeterminate)
           (list_ascii_of_string "abcdefgh") [] 4).
  - repeat constructor; discriminate.
  - simpl. lia.
Defined.

(** C5 as stated fails at capacity zero: the terminator is written to
    [dest[0]], which lies outside the first zero bytes. *)
Lemma safe_strcpy_capacity_zero :
  safe_strcpy [indeterminate] (list_ascii_of_string "abc" ++ NUL :: []) 0
  = Some ([NUL], 0)
  /\ ~ writes_within 0 [indeterminate] [NUL]
  /\ ~ bounded_copy_ok [indeterminate] (list_ascii_of_string "abc") [] 0.
Proof.
  assert (safe_strcpy [indeterminate] (list_ascii_of_string "abc" ++ NUL :: []) 0
          = Some ([NUL], 0)) as Hcode by reflexivity.
  split; [exact Hcode|]. split.
  - intros [_ H]. specialize (H 0%nat ltac:(lia)). discriminate H.
  - intros (dest' & n & Hrun & [_ H] & _).
    assert (Some ([NUL], 0) = Some (dest', Z.of_nat n)) as E
      by (rewrite <- Hcode; exact Hrun).
    injection E as <- _.
    specialize (H 0%nat ltac:(lia)). discriminate H.
Qed.

(** ** The unwinder *)

Lemma unwind_callback_eq (pc : Z) (buf : list Z) (d cnt : Z) :
  unwind_callback pc (mk_backtrace_state buf d cnt)
  = if decide (d <= cnt) then Some (_URC_END_OF_STACK, mk_backtrace_state buf d cnt)
    else if decide (pc <> 0) then
      buf' ← store buf cnt pc;
      Some (_URC_NO_REASON, mk_backtrace_state buf' d (cnt + 1))
    else Some (_URC_NO_REASON, mk_backtrace_state buf d cnt).
Proof. reflexivity. Qed.

(** The walk from a state that has recorded [cnt] values of at most [d]. *)
Lemma unwind_walk (d : nat) (frames : list Z) :
  forall (buf : list Z) (cnt : nat),
    (cnt <= d)%nat -> (d <= length buf)%nat ->
    exists (code : _Unwind_Reason_Code) (calls : nat),
      _Unwind_Backtrace unwind_callback frames
        (mk_backtrace_state buf (Z.of_nat d) (Z.of_nat cnt))
      = Some (code, calls,
              mk_backtrace_state
                (take cnt buf
                   ++ take (d - cnt) (filter (fun pc : Z => pc <> 0%Z) frames)
                   ++ drop (cnt + length (take (d - cnt)
                                            (filter (fun pc : Z => pc <> 0%Z) frames))) buf)
                (Z.of_nat d)
                (Z.of_nat (cnt + length (take (d - cnt)
                                           (filter (fun pc : Z => pc <> 0%Z) frames)))))
      /\ (forall pre post : list Z,
            frames = pre ++ post ->
            (d - cnt <= length (filter (fun pc : Z => pc <> 0%Z) pre))%nat ->
            (calls <= S (length pre))%nat).
Proof.
  induction frames as [|pc frames IH]; intros buf cnt Hcnt Hbuf.
  - exists _URC_END_OF_STACK, 0%nat. split; [|intros; lia].
    cbn [_Unwind_Backtrace]. rewrite filter_nil, take_nil. cbn [app length].
    by rewrite Nat.add_0_r, take_drop.
  - cbn [_Unwind_Backtrace]. rewrite unwind_callback_eq.
    destruct (decide (Z.of_nat d <= Z.of_nat cnt)) as [Hfull|Hroom].
    + exists _URC_FATAL_PHASE1_ERROR, 1%nat. split; [|intros; lia].
      cbn [mbind option_bind]. replace (d - cnt)%nat with 0%nat by lia.
      rewrite take_0. cbn [app length]. by rewrite Nat.add_0_r, take_drop.
    + destruct (decide (pc <> 0)) as [Hpc|Hpc].
      * rewrite store_nat by lia. cbn [mbind option_bind].
        replace (Z.of_nat cnt + 1) with (Z.of_nat (S cnt)) by lia.
        destruct (IH (<[cnt := pc]> buf) (S cnt)) as (code & calls & -> & Hcalls);
          [lia|rewrite length_insert; lia|].
        exists code, (S calls). split.
        -- cbn [mbind option_bind]. rewrite filter_cons_True by done.
           replace (d - cnt)%nat with (S (d - S cnt)) by lia.
           rewrite take_S_insert by lia. rewrite drop_after_insert by lia.
           cbn [take length]. rewrite <- app_assoc. cbn [app].
           rewrite <- !plus_n_Sm. reflexivity.
        -- intros pre post E Hpre. destruct pre as [|x pre].
           ++ rewrite filter_nil in Hpre. simpl in Hpre. lia.
           ++ injection E as -> E. rewrite filter_cons_True in Hpre by done.
              cbn [length] in *. apply le_n_S, (Hcalls pre post E). lia.
      * cbn [mbind option_bind].
        destruct (IH buf cnt) as (code & calls & -> & Hcalls); [lia|lia|].
        exists code, (S calls). split.
        -- cbn [mbind option_bind]. by rewrite filter_cons_False by done.
        -- intros pre post E Hpre. destruct pre as [|x pre].
           ++ rewrite filter_nil in Hpre. simpl in Hpre. lia.
           ++ injection E as -> E. rewrite filter_cons_False in Hpre by done.
              cbn [length]. apply le_n_S, (Hcalls pre post E). lia.
Qed.

Lemma recorded_pcs_length (d : Z) (frames : list Z) :
  0 <= d -> Z.of_nat (length (recorded_pcs d frames)) <= d.
Proof. intros H. unfold recorded_pcs. rewrite length_take. lia. Qed.

(** [capture_backtrace] in closed form. *)
Lemma capture_backtrace_run (frames buffer : list Z) (d : Z) :
  0 <= d <= Z.of_nat (length buffer) ->
  capture_backtrace frames buffer d
  = Some (recorded_pcs d frames ++ drop (length (recorded_pcs d frames)) buffer,
          Z.of_nat (length (recorded_pcs d frames))).
Proof.
  intros Hd. unfold capture_backtrace.
  destruct (unwind_walk (Z.to_nat d) frames buffer 0) as (code & calls & Hrun & _);
    [lia|lia|].
  rewrite Z2Nat.id in Hrun by lia. change (Z.of_nat 0) with 0 in Hrun.
  rewrite Hrun. cbn [mbind option_bind].
  rewrite Nat.sub_0_r, take_0. reflexivity.
Qed.

(** C6: for any sequence of program counters the unwinder presents and any
    maximum depth [d] the buffer has room for, [capture_backtrace] leaves in
    the buffer the non-zero program counters in walk order, zeros skipped,
    up to [d] of them; it returns their number, which is at most [d]; and
    once [d] values are recorded the callback is called at most one more
    time, so the walk stops there. *)
Theorem capture_backtrace_records (frames buffer : list Z) (d : Z) :
  0 <= d <= Z.of_nat (length buffer) ->
  exists (code : _Unwind_Reason_Code) (calls : nat) (buffer' : list Z) (n : Z),
    _Unwind_Backtrace unwind_callback frames (mk_backtrace_state buffer d 0)
    = Some (code, calls, mk_backtrace_state buffer' d n)
    /\ capture_backtrace frames buffer d = Some (buffer', n)
    /\ n = Z.of_nat (length (recorded_pcs d frames))
    /\ take (Z.to_nat n) buffer' = recorded_pcs d frames
    /\ drop (Z.to_nat n) buffer' = drop (Z.to_nat n) buffer
    /\ recorded_pcs d frames = take (Z.to_nat d) (filter (fun pc : Z => pc <> 0%Z) frames)
    /\ 0 <= n <= d
    /\ (forall pre post : list Z,
          frames = pre ++ post ->
          d <= Z.of_nat (length (filter (fun pc : Z => pc <> 0%Z) pre)) ->
          (calls <= S (length pre))%nat).
Proof.
  intros Hd.
  destruct (unwind_walk (Z.to_nat d) frames buffer 0) as (code & calls & Hrun & Hcalls);
    [lia|lia|].
  rewrite Z2Nat.id in Hrun by lia. change (Z.of_nat 0) with 0 in Hrun.
  rewrite Nat.sub_0_r, take_0 in Hrun. cbn [app Nat.add] in Hrun.
  fold (recorded_pcs d frames) in Hrun.
  pose proof (recorded_pcs_length d frames ltac:(lia)) as Hlen.
  exists code, calls,
    (recorded_pcs d frames ++ drop (length (recorded_pcs d frames)) buffer),
    (Z.of_nat (length (recorded_pcs d frames))).
  split; [exact Hrun|]. split; [by apply capture_backtrace_run|].
  split; [done|]. rewrite Nat2Z.id.
  split; [apply take_app_length|]. split; [apply drop_app_length|].
  split; [done|]. split; [lia|].
  intros pre post E Hpre. apply (Hcalls pre post E). lia.
Qed.

Lemma capture_backtrace_records_witness :
  exists (code : _Unwind_Reason_Code) (calls : nat) (buffer' : list Z) (n : Z),
    _Unwind_Backtrace unwind_callback [4096; 0; 8192; 12288; 16384]
      (mk_backtrace_state [0; 0; 0] 2 0)
    = Some (code, calls, mk_backtrace_state buffer' 2 n)
    /\ capture_backtrace [4096; 0; 8192; 12288; 16384] [0; 0; 0] 2 = Some (buffer', n)
    /\ n = Z.of_nat (length (recorded_pcs 2 [4096; 0; 8192; 12288; 16384]))
    /\ take (Z.to_nat n) buffer' = recorded_pcs 2 [4096; 0; 8192; 12288; 16384]
    /\ drop (Z.to_nat n) buffer' = drop (Z.to_nat n) [0; 0; 0]
    /\ recorded_pcs 2 [4096; 0; 8192; 12288; 16384]
       = take (Z.to_nat 2) (filter (fun pc : Z => pc <> 0%Z) [4096; 0; 8192; 12288; 16384])
    /\ 0 <= n <= 2
    /\ (forall pre post : list Z,
          [4096; 0; 8192; 12288; 16384] = pre ++ post ->
          2 <= Z.of_nat (length (filter (fun pc : Z => pc <> 0%Z) pre)) ->
          (calls <= S (length pre))%nat).
Proof.
  apply (capture_backtrace_records [4096; 0; 8192; 12288; 16384] [0; 0; 0] 2).
  simpl. lia.
Defined.

Example capture_backtrace_skips_zero :
  capture_backtrace [4096; 0; 8192; 12288; 16384] [0; 0; 0] 2
  = Some ([4096; 8192; 0], 2).
Proof. reflexivity. Qed.

Example unwind_stops_at_depth :
  _Unwind_Backtrace unwind_callback [4096; 0; 8192; 12288; 16384]
    (mk_backtrace_state [0; 0; 0] 2 0)
  = Some (_URC_FATAL_PHASE1_ERROR, 4%nat, mk_backtrace_state [4096; 8192; 0] 2 2).
Proof. reflexivity. Qed.

(** ** Running computations *)

Lemma bind_run {A B} (m : M A) (k : A -> M B) (s s' : state) (a : A) :
  m s = Some (a, s') -> (m ≫= k) s = k a s'.
Proof. intros H. unfold mbind, M_bind. by rewrite H. Qed.

Lemma gets_run {A} (f : state -> A) (s : state) : gets f s = Some (f s, s).
Proof. reflexivity. Qed.

Lemma modify_run (f : state -> state) (s : state) : modify f s = Some (tt, f s).
Proof. reflexivity. Qed.

Lemma lift_run {A} (o : option A) (a : A) (s : state) :
  o = Some a -> lift o s = Some (a, s).
Proof. by intros ->. Qed.

Lemma mret_run {A} (a : A) (s : state) : (mret a : M A) s = Some (a, s).
Proof. reflexivity. Qed.

Ltac run_by tac := erewrite bind_run; [|solve [tac]]; cbv beta match.
Ltac run_gets := run_by ltac:(apply gets_run).
Ltac run_modify := run_by ltac:(apply modify_run).

Lemma log_all_nil (s : state) : log_all [] s = s.
Proof. destruct s. unfold log_all. cbn. by rewrite app_nil_r. Qed.

Lemma log_all_log (e : event) (es : list event) (s : state) :
  log_all es (log e s) = log_all (e :: es) s.
Proof. unfold log_all, log. cbn. by rewrite <- app_assoc. Qed.

Lemma log_all_app (es es' : list event) (s : state) :
  log_all es' (log_all es s) = log_all (es ++ es') s.
Proof. unfold log_all. cbn. by rewrite <- app_assoc. Qed.

Lemma log_as_log_all (e : event) (s : state) : log e s = log_all [e] s.
Proof. reflexivity. Qed.

(** ** safe_write *)

Lemma safe_write_run (fd : Z) (str rest : list char) (s : state) :
  0 <= fd -> Forall (fun c => c <> NUL) str ->
  safe_write fd (Some (str ++ NUL :: rest)) s
  = Some (tt, log (EvWrite fd str) s).
Proof.
  intros Hfd Hstr. unfold safe_write.
  rewrite decide_False by (intros [?|?]; [lia|done]).
  run_by ltac:(by apply lift_run).
  run_by ltac:(apply lift_run; by apply c_strlen_spec).
  unfold sys_write. rewrite decide_True by (rewrite length_app; lia).
  by rewrite Nat2Z.id, take_app_length.
Qed.

Lemma safe_write_skip (fd : Z) (str : option (list char)) (s : state) :
  fd < 0 \/ str = None -> safe_write fd str s = Some (tt, s).
Proof. intros H. unfold safe_write. by rewrite decide_True by done. Qed.

Lemma signal_text_spec (sig : Z) :
  get_signal_name sig = signal_text sig ++ [NUL]
  /\ Forall (fun c => c <> NUL) (signal_text sig).
Proof.
  unfold signal_text, get_signal_name.
  repeat case_decide; (split; [reflexivity|repeat constructor; discriminate]).
Qed.

Lemma itoa_text_no_NUL (v : Z) :
  Forall (fun c => c <> NUL) (itoa_text 16 (to_ulong v)).
Proof.
  apply Forall_lower_hex_not_NUL.
  by apply (itoa_text_hex (to_ulong v) (to_ulong_range v)).
Qed.

(** ** The loops of the handler *)

Lemma frames_events_cons (fd pc : Z) (pcs : list Z) :
  frames_events fd (pc :: pcs) = line_events fd pc ++ frames_events fd pcs.
Proof. reflexivity. Qed.

Lemma write_frames_run (fd : Z) (pcs rest : list Z) (fuel : nat) :
  0 <= fd ->
  forall (k : nat) (num_buf : list char) (s : state),
    g_backtrace_buffer s = pcs ++ rest ->
    (k <= length pcs)%nat -> (length pcs - k < fuel)%nat ->
    (24 <= length num_buf)%nat ->
    exists num_buf' : list char,
      write_frames fuel fd (Z.of_nat (length pcs)) (Z.of_nat k) num_buf s
      = Some (num_buf', log_all (frames_events fd (drop k pcs)) s).
Proof.
  intros Hfd. induction fuel as [|fuel IH]; intros k num_buf s Hbt Hk Hfuel Hlen; [lia|].
  cbn [write_frames]. case_decide as Hc.
  - destruct (lookup_lt_is_Some_2 pcs k) as [pc Hpc]; [lia|].
    pose proof (to_ulong_range pc) as Hv.
    pose proof (itoa_text_hex _ Hv) as [_ Htl].
    run_by ltac:(apply (safe_write_run fd (list_ascii_of_string "0x") []);
                 [done|repeat constructor; discriminate]).
    run_gets. cbn [g_backtrace_buffer log]. rewrite Hbt.
    run_by ltac:(apply lift_run; rewrite load_nat; by apply lookup_app_l_Some).
    run_by ltac:(apply lift_run, safe_itoa_run; lia).
    run_by ltac:(apply safe_write_run; [done|apply itoa_text_no_NUL]).
    run_by ltac:(apply (safe_write_run fd [LF] []); [done|repeat constructor; discriminate]).
    replace (Z.of_nat k + 1) with (Z.of_nat (S k)) by lia.
    edestruct (IH (S k)) as [num_buf' ->];
      [| |shelve|shelve|].
    + exact Hbt.
    + lia.
    + exists num_buf'. do 2 f_equal.
      rewrite !log_all_log. rewrite (drop_S pcs pc k Hpc), frames_events_cons.
      reflexivity.
    Unshelve.
    * lia.
    * rewrite length_app. cbn [length]. rewrite length_drop. lia.
  - assert (k = length pcs) as -> by lia. exists num_buf.
    rewrite drop_all. cbn. by rewrite log_all_nil.
Qed.

Lemma signal_index_lookup (sig : Z) (i : nat) :
  signal_index sig = Some i <-> g_signals !! i = Some sig.
Proof.
  unfold signal_index, g_signals. split.
  - cbn. repeat case_decide; intros [= <-]; by subst.
  - do 6 (destruct i as [|i]; [intros [= <-]; reflexivity|]). discriminate.
Qed.

Lemma signal_index_None (sig : Z) : signal_index sig = None <-> sig ∉ g_signals.
Proof.
  unfold signal_index. rewrite fmap_None, list_find_None, Forall_forall.
  split; [intros H Hin; by apply (H sig)|intros H x Hx ->; by apply H].
Qed.

Lemma find_sig_index_S (fuel : nat) (sig i sig_index : Z) :
  find_sig_index (S fuel) sig i sig_index
  = if decide (i < g_num_signals) then
      s ← load g_signals i;
      if decide (s = sig) then Some i
      else find_sig_index fuel sig (i + 1) sig_index
    else Some sig_index.
Proof. reflexivity. Qed.

Ltac find_sig_index_iter :=
  rewrite find_sig_index_S;
  rewrite decide_True by (unfold g_num_signals; lia);
  match goal with
  | |- context [load g_signals ?i] =>
      let v := eval vm_compute in (load g_signals i) in
      change (load g_signals i) with v
  end;
  cbn [mbind option_bind];
  rewrite decide_False by (intros <-; contradiction).

Lemma find_sig_index_run (sig : Z) :
  find_sig_index (S (Z.to_nat g_num_signals)) sig 0 (-1)
  = Some (match signal_index sig with
          | Some i => Z.of_nat i
          | None => -1
          end).
Proof.
  destruct (decide (sig = SIGSEGV)) as [->|H1]; [reflexivity|].
  destruct (decide (sig = SIGABRT)) as [->|H2]; [reflexivity|].
  destruct (decide (sig = SIGBUS)) as [->|H3]; [reflexivity|].
  destruct (decide (sig = SIGFPE)) as [->|H4]; [reflexivity|].
  destruct (decide (sig = SIGILL)) as [->|H5]; [reflexivity|].
  destruct (decide (sig = SIGTRAP)) as [->|H6]; [reflexivity|].
  assert (signal_index sig = None) as ->.
  { apply signal_index_None. unfold g_signals.
    rewrite !elem_of_cons, elem_of_nil. tauto. }
  change (S (Z.to_nat g_num_signals)) with 7%nat.
  unfold SIGSEGV, SIGABRT, SIGBUS, SIGFPE, SIGILL, SIGTRAP in *.
  do 6 find_sig_index_iter.
  rewrite find_sig_index_S. by rewrite decide_False by (unfold g_num_signals; lia).
Qed.

Lemma monitored_signal_valid (sig : Z) (i : nat) :
  signal_index sig = Some i ->
  (i < 6)%nat /\ 1 <= sig <= 64 /\ sig <> SIGKILL /\ sig <> SIGSTOP.
Proof.
  rewrite signal_index_lookup. unfold g_signals.
  do 6 (destruct i as [|i]; [intros [= <-]; vm_compute; repeat split; (lia || discriminate)|]).
  discriminate.
Qed.

Lemma sys_open_run (path p : list char) (flags mode : Z) (s : state) :
  c_string path = Some p ->
  sys_open path flags mode s
  = Some (next_open s,
          log (EvOpen p flags mode (next_open s)) (set_open (tail (k_open s)) s)).
Proof. intros H. unfold sys_open. by rewrite H. Qed.

Lemma sys_sigaction_run (sig : Z) (act : sigaction_t) (s : state) :
  1 <= sig <= 64 /\ sig <> SIGKILL /\ sig <> SIGSTOP ->
  sys_sigaction sig (Some act) s
  = Some (Some (action_of s sig),
          set_actions (<[sig := act]> (k_actions s))
            (log (EvSigaction sig (Some act)) s)).
Proof. intros H. unfold sys_sigaction. by rewrite decide_True by done. Qed.

Lemma bind_assoc_run {A B C} (m : M A) (k1 : A -> M B) (k2 : B -> M C) (s : state) :
  ((m ≫= k1) ≫= k2) s = (m ≫= fun a => k1 a ≫= k2) s.
Proof. unfold mbind, M_bind. by destruct (m s) as [[a s']|]. Qed.

(** ** crash_signal_handler in closed form *)

Lemma report_fd_eq (s : state) :
  report_fd s = if decide (next_open s < 0) then g_crash_fd s else next_open s.
Proof. reflexivity. Qed.

Ltac state_simpl :=
  cbn [g_crash_file_path g_crash_fd g_write_buffer g_backtrace_buffer
       g_old_handlers k_actions k_open k_frames k_trace
       log log_all set_open set_backtrace_buffer set_actions set_crash_fd
       set_crash_file_path set_old_handlers].

(** Two states with the same fields are the same state. *)
Lemma state_ext (s1 s2 : state) :
  g_crash_file_path s1 = g_crash_file_path s2 ->
  g_crash_fd s1 = g_crash_fd s2 ->
  g_write_buffer s1 = g_write_buffer s2 ->
  g_backtrace_buffer s1 = g_backtrace_buffer s2 ->
  g_old_handlers s1 = g_old_handlers s2 ->
  k_actions s1 = k_actions s2 ->
  k_open s1 = k_open s2 ->
  k_frames s1 = k_frames s2 ->
  k_trace s1 = k_trace s2 ->
  s1 = s2.
Proof. destruct s1, s2. cbn. by intros -> -> -> -> -> -> -> -> ->. Qed.

Ltac state_eq := apply state_ext; state_simpl; try reflexivity.

(** The write phase: the state after [open] becomes the state with the
    report logged and the backtrace buffer filled. *)
Lemma report_phase_run (sig : Z) (info : siginfo_t) (p : list char) (s : state) :
  length (g_backtrace_buffer s) = Z.to_nat MAX_BACKTRACE_DEPTH ->
  0 <= report_fd s ->
  (let num_buf := replicate (Z.to_nat INT_BUFFER_SIZE) indeterminate in
   safe_write (report_fd s) (Some (get_signal_name sig));;
   safe_write (report_fd s) (Some [LF; NUL]);;
   safe_write (report_fd s) (Some (cstr "0x"));;
   '(num_buf, _) ← lift (safe_itoa (to_ulong (si_addr info)) num_buf 16);
   safe_write (report_fd s) (Some num_buf);;
   safe_write (report_fd s) (Some [LF; NUL]);;
   frames ← gets k_frames;
   backtrace ← gets g_backtrace_buffer;
   '(backtrace, depth) ← lift (capture_backtrace frames backtrace MAX_BACKTRACE_DEPTH);
   modify (set_backtrace_buffer backtrace);;
   write_frames (S (Z.to_nat depth)) (report_fd s) depth 0 num_buf;;
   fallback ← gets g_crash_fd;
   if decide (report_fd s <> fallback) then sys_close (report_fd s) else mret tt)
    (log (EvOpen p open_flags 420 (next_open s)) (set_open (tail (k_open s)) s))
  = Some (tt,
      mk_state (g_crash_file_path s) (g_crash_fd s) (g_write_buffer s)
         (recorded_pcs MAX_BACKTRACE_DEPTH (k_frames s)
          ++ drop (length (recorded_pcs MAX_BACKTRACE_DEPTH (k_frames s)))
               (g_backtrace_buffer s))
         (g_old_handlers s) (k_actions s) (tail (k_open s)) (k_frames s)
         (k_trace s ++ EvOpen p open_flags 420 (next_open s)
                       :: report_part sig info s)).
Proof.
  intros Hbt Hfd. cbv zeta.
  unfold report_part. rewrite (decide_True (P := 0 <= report_fd s)) by done.
  remember (report_fd s) as fd eqn:Efd.
  remember (recorded_pcs MAX_BACKTRACE_DEPTH (k_frames s)) as pcs eqn:Epcs.
  destruct (signal_text_spec sig) as [-> Hname].
  pose proof (to_ulong_range (si_addr info)) as Hv.
  pose proof (itoa_text_hex _ Hv) as [_ Htl].
  run_by ltac:(by apply safe_write_run).
  run_by ltac:(apply (safe_write_run fd [LF] []); [done|repeat constructor; discriminate]).
  run_by ltac:(apply (safe_write_run fd (list_ascii_of_string "0x") []);
               [done|repeat constructor; discriminate]).
  run_by ltac:(apply lift_run, safe_itoa_run; [lia|lia|by rewrite length_replicate]).
  run_by ltac:(apply safe_write_run; [done|apply itoa_text_no_NUL]).
  run_by ltac:(apply (safe_write_run fd [LF] []); [done|repeat constructor; discriminate]).
  run_gets. run_gets. state_simpl.
  run_by ltac:(apply lift_run, capture_backtrace_run; rewrite Hbt; done).
  rewrite <- Epcs. run_modify. rewrite Nat2Z.id.
  match goal with
  | |- (write_frames _ _ _ _ ?nb ≫= _) ?st = _ =>
      destruct (write_frames_run fd pcs
                  (drop (length pcs) (g_backtrace_buffer s))
                  (S (length pcs)) Hfd 0 nb st) as [nb' Hwf];
        [reflexivity|lia|lia
        |rewrite length_app; cbn [length]; rewrite length_drop, length_replicate;
         change (Z.to_nat INT_BUFFER_SIZE) with 24%nat; lia|]
  end.
  change (Z.of_nat 0) with 0 in Hwf. rewrite drop_0 in Hwf.
  run_by ltac:(exact Hwf). clear Hwf.
  run_gets. state_simpl.
  assert (forall tr : list event,
    ((((((tr ++ [EvOpen p open_flags 420 (next_open s)])
           ++ [EvWrite fd (signal_text sig)]) ++ [EvWrite fd [LF]])
         ++ [EvWrite fd (list_ascii_of_string "0x")])
        ++ [EvWrite fd (itoa_text 16 (to_ulong (si_addr info)))])
       ++ [EvWrite fd [LF]]) ++ frames_events fd pcs
    = tr ++ EvOpen p open_flags 420 (next_open s)
         :: report_events fd sig (si_addr info) pcs) as Htrace.
  { intros tr. unfold report_events, line_events.
    rewrite <- !app_assoc. reflexivity. }
  state_simpl. case_decide.
  - unfold sys_close, modify. apply (f_equal Some), (f_equal (pair tt)). state_eq.
    rewrite Htrace. rewrite <- app_assoc. reflexivity.
  - unfold mret, M_ret. apply (f_equal Some), (f_equal (pair tt)). state_eq.
    rewrite Htrace. by rewrite app_nil_r.
Qed.

Lemma crash_signal_handler_run (sig : Z) (info : siginfo_t) (p : list char) (s : state) :
  registration_ok s -> c_string (g_crash_file_path s) = Some p ->
  crash_signal_handler sig info s = Some (tt, handler_result sig info p s).
Proof.
  intros (_ & Hbt & Hold) Hp. unfold crash_signal_handler.
  run_gets. run_by ltac:(by apply sys_open_run). run_gets.
  cbn [g_crash_fd log set_open]. fold open_flags. rewrite <- report_fd_eq.
  assert (exists s2 : state,
    s2 = mk_state (g_crash_file_path s) (g_crash_fd s) (g_write_buffer s)
           (if decide (0 <= report_fd s) then
              recorded_pcs MAX_BACKTRACE_DEPTH (k_frames s)
              ++ drop (length (recorded_pcs MAX_BACKTRACE_DEPTH (k_frames s)))
                   (g_backtrace_buffer s)
            else g_backtrace_buffer s)
           (g_old_handlers s) (k_actions s) (tail (k_open s)) (k_frames s)
           (k_trace s ++ EvOpen p open_flags 420 (next_open s)
                         :: report_part sig info s)) as [s2 Es2] by eauto.
  match goal with
  | |- (?blk ≫= _) ?s1 = _ => assert (blk s1 = Some (tt, s2)) as Hblk
  end.
  { subst s2. case_decide as Hfd.
    - by apply report_phase_run.
    - unfold report_part. rewrite decide_False by done.
      reflexivity. }
  run_by ltac:(exact Hblk). clear Hblk.
  run_by ltac:(apply lift_run, find_sig_index_run).
  assert (g_old_handlers s2 = g_old_handlers s) as Holds by (by subst s2).
  assert (k_actions s2 = k_actions s) as Hacts by (by subst s2).
  unfold handler_result, handler_events, restore_part, restored_action.
  destruct (signal_index sig) as [i|] eqn:Ei; cbn [mbind option_bind].
  - destruct (monitored_signal_valid sig i Ei) as [Hi Hvalid].
    destruct (lookup_lt_is_Some_2 (g_old_handlers s) i) as [old Hold'];
      [rewrite Hold; exact Hi|].
    rewrite Hold'. rewrite decide_True by lia.
    rewrite bind_assoc_run. run_gets. rewrite Holds.
    rewrite bind_assoc_run.
    run_by ltac:(apply lift_run; rewrite load_nat; exact Hold').
    rewrite bind_assoc_run.
    run_by ltac:(by apply sys_sigaction_run).
    run_by ltac:(apply mret_run).
    unfold sys_raise, modify. apply (f_equal Some), (f_equal (pair tt)). subst s2. state_eq.
    rewrite <- !app_assoc. reflexivity.
  - rewrite decide_False by lia.
    run_by ltac:(apply mret_run).
    unfold sys_raise, modify. apply (f_equal Some), (f_equal (pair tt)). subst s2. state_eq.
    rewrite <- !app_assoc. reflexivity.
Qed.

(** ** Reading the events of the handler *)

Lemma events_since_app (s s' : state) (es : list event) :
  k_trace s' = k_trace s ++ es -> events_since s s' = es.
Proof. intros H. unfold events_since. rewrite H. apply drop_app_length. Qed.

Lemma handler_result_events (sig : Z) (info : siginfo_t) (p : list char) (s : state) :
  events_since s (handler_result sig info p s) = handler_events sig info p s.
Proof. by apply events_since_app. Qed.

Lemma written_app (fd : Z) (es es' : list event) :
  written fd (es ++ es') = written fd es ++ written fd es'.
Proof. unfold written. by rewrite omap_app, join_app. Qed.

Lemma written_write (fd : Z) (data : list char) (es : list event) :
  written fd (EvWrite fd data :: es) = data ++ written fd es.
Proof. unfold written. cbn. by rewrite decide_True by done. Qed.

Lemma written_no_write (fd : Z) (es : list event) :
  Forall (fun e => ~ is_write e) es -> written fd es = [].
Proof.
  induction 1 as [|e es He _ IH]; [done|].
  unfold written in *. destruct e; cbn in *; done.
Qed.

Lemma written_other (fd : Z) (es : list event) :
  Forall (fun e => forall data, e <> EvWrite fd data) es -> written fd es = [].
Proof.
  induction 1 as [|e es He _ IH]; [done|].
  unfold written in *. destruct e as [| fd0 data | | |]; cbn; try done.
  case_decide; [|done]. subst. by destruct (He data).
Qed.

Lemma written_frames (fd : Z) (pcs : list Z) :
  written fd (frames_events fd pcs)
  = mjoin ((fun t => list_ascii_of_string "0x" ++ t ++ [LF])
             <$> ((fun pc => itoa_text 16 (to_ulong pc)) <$> pcs)).
Proof.
  induction pcs as [|pc pcs IH]; [done|].
  rewrite frames_events_cons, written_app, IH. unfold line_events.
  rewrite !written_write. change (written fd []) with (@nil char).
  rewrite !fmap_cons. cbn [mjoin list_join]. by rewrite app_nil_r, <- !app_assoc.
Qed.

Lemma written_report (fd sig addr : Z) (pcs : list Z) :
  written fd (report_events fd sig addr pcs)
  = report_text (signal_text sig) (itoa_text 16 (to_ulong addr))
      ((fun pc => itoa_text 16 (to_ulong pc)) <$> pcs).
Proof.
  unfold report_events, report_text, line_events. cbn [app].
  rewrite !written_write, written_frames. reflexivity.
Qed.

Lemma report_events_writes (fd sig addr : Z) (pcs : list Z) :
  Forall (fun e => exists data, e = EvWrite fd data) (report_events fd sig addr pcs).
Proof.
  unfold report_events, line_events. cbn [app].
  repeat (constructor; [by eexists|]).
  induction pcs as [|pc pcs IH]; [constructor|].
  rewrite frames_events_cons. unfold line_events. cbn [app].
  by repeat (constructor; [by eexists|]).
Qed.

Lemma restore_part_no_write (sig : Z) (s : state) :
  Forall (fun e => ~ is_write e) (restore_part sig s ++ [EvRaise sig]).
Proof.
  unfold restore_part. destruct (restored_action sig s); repeat constructor; by intros [].
Qed.

Lemma canonical_signal_text (sig : Z) : canonical_name sig (signal_text sig).
Proof.
  unfold canonical_name, signal_text, get_signal_name.
  repeat (case_decide; [tauto|]).
  do 6 right. split; [|reflexivity].
  unfold g_signals. rewrite !elem_of_cons, elem_of_nil. tauto.
Qed.

Lemma registration_path (s : state) :
  registration_ok s -> exists p, c_string (g_crash_file_path s) = Some p.
Proof. by intros [[p Hp] _]; exists p. Qed.

(** C1: when the handler has a usable descriptor, the bytes it writes to
    it are, in this order: the canonical name of the signal ([UNKNOWN] for
    a signal outside the monitored set) and a newline; [0x], the faulting
    address in lowercase hexadecimal, and a newline; then for each captured
    frame [0x], its address in lowercase hexadecimal, and a newline, with at
    most [MAX_BACKTRACE_DEPTH] such lines.  Nothing is written to any other
    descriptor.  (Addresses are [unsigned long] values, on which [to_ulong]
    is the identity.) *)
Theorem crash_report_format (sig : Z) (info : siginfo_t) (s : state) :
  registration_ok s -> 0 <= report_fd s ->
  exists (s' : state) (name addr_text : list char) (frame_texts : list (list char)),
    crash_signal_handler sig info s = Some (tt, s')
    /\ written (report_fd s) (events_since s s')
       = report_text name addr_text frame_texts
    /\ get_signal_name sig = name ++ [NUL]
    /\ canonical_name sig name
    /\ text_of 16 (to_ulong (si_addr info)) addr_text
    /\ Forall2 (fun pc t => text_of 16 (to_ulong pc) t)
         (recorded_pcs MAX_BACKTRACE_DEPTH (k_frames s)) frame_texts
    /\ Z.of_nat (length frame_texts) <= MAX_BACKTRACE_DEPTH
    /\ (forall fd : Z, fd <> report_fd s -> written fd (events_since s s') = []).
Proof.
  intros Hreg Hfd. destruct (registration_path s Hreg) as [p Hp].
  exists (handler_result sig info p s), (signal_text sig),
    (itoa_text 16 (to_ulong (si_addr info))),
    ((fun pc => itoa_text 16 (to_ulong pc))
       <$> recorded_pcs MAX_BACKTRACE_DEPTH (k_frames s)).
  split; [by apply crash_signal_handler_run|].
  rewrite handler_result_events. unfold handler_events, report_part.
  rewrite decide_True by done.
  assert (Forall (fun e => ~ is_write e)
            ((if decide (report_fd s <> g_crash_fd s)
              then [EvClose (report_fd s)] else [])
             ++ restore_part sig s ++ [EvRaise sig])) as Htail.
  { apply Forall_app. split; [|apply restore_part_no_write].
    case_decide; repeat constructor. by intros []. }
  split; [|split; [|split; [|split; [|split; [|split]]]]].
  - change (written (report_fd s) (?e :: ?es)) with (written (report_fd s) es).
    rewrite <- app_assoc, written_app, written_report.
    by rewrite (written_no_write _ _ Htail), app_nil_r.
  - apply signal_text_spec.
  - apply canonical_signal_text.
  - apply itoa_text_hex, to_ulong_range.
  - apply Forall2_fmap_r, Forall_Forall2_diag, Forall_forall.
    intros pc _. apply itoa_text_hex, to_ulong_range.
  - rewrite length_fmap. apply recorded_pcs_length. unfold MAX_BACKTRACE_DEPTH. lia.
  - intros fd Hne. apply written_other. rewrite Forall_cons. split; [done|].
    rewrite <- app_assoc. apply Forall_app. split.
    + eapply Forall_impl; [apply report_events_writes|].
      intros e [data ->] data'. congruence.
    + eapply Forall_impl; [exact Htail|].
      intros e He data ->. by apply He.
Qed.

Lemma crash_report_format_witness :
  exists (s' : state) (text : list char),
    crash_signal_handler SIGSEGV (mk_siginfo SIGSEGV 0)
      (initial_state ∅ [3] [4096; 0; 8192]) = Some (tt, s')
    /\ written 3 (events_since (initial_state ∅ [3] [4096; 0; 8192]) s') = text.
Proof.
  destruct (crash_report_format SIGSEGV (mk_siginfo SIGSEGV 0)
              (initial_state ∅ [3] [4096; 0; 8192]))
    as (s' & name & addr_text & frame_texts & Hrun & Hwritten & _).
  - split; [by eexists|split; reflexivity].
  - vm_compute. discriminate.
  - exists s', (report_text name addr_text frame_texts). by split.
Defined.

Example crash_report_segv :
  (crash_signal_handler SIGSEGV (mk_siginfo SIGSEGV 0)
     (initial_state ∅ [3] [4096; 0; 8192; 255])
   ≫= fun r => Some (string_of_list_ascii (written 3 (k_trace r.2))))
  = Some (String.append "SIGSEGV"
           (string_of_list_ascii
              ([LF] ++ list_ascii_of_string "0x0" ++ [LF]
               ++ list_ascii_of_string "0x1000" ++ [LF]
               ++ list_ascii_of_string "0x2000" ++ [LF]
               ++ list_ascii_of_string "0xff" ++ [LF]))).
Proof. vm_compute. reflexivity. Qed.

(** C7: [safe_write] does nothing at all on a negative descriptor or a null
    pointer; on a valid descriptor and a string it finds the length by the
    scan up to the terminator and makes exactly one call of [write], with
    exactly the bytes before the terminator, whatever that call achieves. *)
Theorem safe_write_contract (fd : Z) (str : option (list char)) (s : state) :
  (fd < 0 \/ str = None -> safe_write fd str s = Some (tt, s))
  /\ (forall text rest : list char,
        0 <= fd -> str = Some (text ++ NUL :: rest) ->
        Forall (fun c => c <> NUL) text ->
        c_strlen (text ++ NUL :: rest) = Some (Z.of_nat (length text))
        /\ safe_write fd str s = Some (tt, log (EvWrite fd text) s)
        /\ events_since s (log (EvWrite fd text) s) = [EvWrite fd text]).
Proof.
  split; [apply safe_write_skip|].
  intros text rest Hfd -> Htext.
  split; [by apply c_strlen_spec|]. split; [by apply safe_write_run|].
  by apply events_since_app.
Qed.

Lemma safe_write_contract_witness :
  safe_write (-1) (Some (cstr "abc")) (initial_state ∅ [] [])
  = Some (tt, initial_state ∅ [] [])
  /\ safe_write 5 None (initial_state ∅ [] []) = Some (tt, initial_state ∅ [] [])
  /\ safe_write 5 (Some (cstr "abc")) (initial_state ∅ [] [])
     = Some (tt, log (EvWrite 5 (list_ascii_of_string "abc")) (initial_state ∅ [] [])).
Proof.
  split; [|split].
  - apply (proj1 (safe_write_contract (-1) (Some (cstr "abc")) (initial_state ∅ [] []))).
    left. lia.
  - apply (proj1 (safe_write_contract 5 None (initial_state ∅ [] []))). by right.
  - apply (proj2 (safe_write_contract 5 (Some (cstr "abc")) (initial_state ∅ [] []))
             (list_ascii_of_string "abc") []).
    + lia.
    + reflexivity.
    + repeat constructor; discriminate.
Defined.

(** C3: the handler first calls [open] on the stored path.  When that
    succeeds the report goes to the fresh descriptor; when it fails and the
    fallback descriptor of arm time is valid the report goes to the
    fallback; when both are negative nothing is written or closed, and the
    handler goes on to the restoration and the re-raise.  In every case it
    returns. *)
Theorem handler_descriptor_choice (sig : Z) (info : siginfo_t) (s : state) :
  registration_ok s ->
  exists (s' : state) (p : list char),
    crash_signal_handler sig info s = Some (tt, s')
    /\ c_string (g_crash_file_path s) = Some p
    /\ head (events_since s s') = Some (EvOpen p open_flags 420 (next_open s))
    /\ (0 <= next_open s ->
        exists closing : list event,
          events_since s s'
          = EvOpen p open_flags 420 (next_open s)
            :: report_events (next_open s) sig (si_addr info)
                 (recorded_pcs MAX_BACKTRACE_DEPTH (k_frames s))
            ++ closing ++ restore_part sig s ++ [EvRaise sig]
          /\ Forall (fun e => ~ is_write e) closing)
    /\ (next_open s < 0 -> 0 <= g_crash_fd s ->
        events_since s s'
        = EvOpen p open_flags 420 (next_open s)
          :: report_events (g_crash_fd s) sig (si_addr info)
               (recorded_pcs MAX_BACKTRACE_DEPTH (k_frames s))
          ++ restore_part sig s ++ [EvRaise sig])
    /\ (next_open s < 0 -> g_crash_fd s < 0 ->
        events_since s s'
        = EvOpen p open_flags 420 (next_open s)
          :: restore_part sig s ++ [EvRaise sig]
        /\ Forall (fun e => ~ is_write e) (events_since s s')
        /\ g_backtrace_buffer s' = g_backtrace_buffer s).
Proof.
  intros Hreg. destruct (registration_path s Hreg) as [p Hp].
  exists (handler_result sig info p s), p.
  split; [by apply crash_signal_handler_run|]. split; [done|].
  rewrite handler_result_events. unfold handler_events, report_part, report_fd.
  split; [done|]. split; [|split].
  - intros Hfresh. rewrite (decide_False (P := next_open s < 0)) by lia.
    rewrite decide_True by done.
    eexists. rewrite <- app_assoc. split; [reflexivity|].
    case_decide; repeat constructor. by intros [].
  - intros Hfail Hfallback. rewrite (decide_True (P := next_open s < 0)) by done.
    rewrite decide_True by done. rewrite decide_False by (intros H; by apply H).
    by rewrite app_nil_r.
  - intros Hfail Hfallback. rewrite (decide_True (P := next_open s < 0)) by done.
    rewrite decide_False by lia. cbn [app].
    split; [done|]. split.
    + constructor; [by intros []|apply restore_part_no_write].
    + unfold handler_result, report_fd. cbn [g_backtrace_buffer].
      rewrite (decide_True (P := next_open s < 0)) by done.
      by rewrite decide_False by lia.
Qed.

Lemma handler_descriptor_choice_witness :
  exists (s' : state),
    crash_signal_handler SIGABRT (mk_siginfo SIGABRT 0) (initial_state ∅ [-1] [4096])
    = Some (tt, s')
    /\ Forall (fun e => ~ is_write e)
         (events_since (initial_state ∅ [-1] [4096]) s').
Proof.
  destruct (handler_descriptor_choice SIGABRT (mk_siginfo SIGABRT 0)
              (initial_state ∅ [-1] [4096]))
    as (s' & p & Hrun & _ & _ & _ & _ & Hnone).
  - split; [by eexists|split; reflexivity].
  - exists s'. split; [exact Hrun|]. apply Hnone; reflexivity.
Defined.

Example handler_without_descriptor :
  (crash_signal_handler SIGABRT (mk_siginfo SIGABRT 0) (initial_state ∅ [-1] [4096])
   ≫= fun r => Some (k_trace r.2))
  = Some [EvOpen [] open_flags 420 (-1);
          EvSigaction SIGABRT (Some zero_sigaction);
          EvRaise SIGABRT].
Proof. vm_compute. reflexivity. Qed.

(** C9: the descriptor the handler opened is closed exactly when it
    differs from the fallback descriptor, and then after the last write;
    the fallback descriptor is never closed; the path buffer, the fallback
    descriptor, the Original-Handler Table and the write buffer are after
    the handler what they were before. *)
Theorem handler_closes_fresh_descriptor (sig : Z) (info : siginfo_t) (s : state) :
  registration_ok s ->
  exists s' : state,
    crash_signal_handler sig info s = Some (tt, s')
    /\ (forall fd : Z,
          EvClose fd ∈ events_since s s'
          <-> fd = next_open s /\ 0 <= next_open s /\ next_open s <> g_crash_fd s)
    /\ (0 <= next_open s -> next_open s <> g_crash_fd s ->
        exists before after : list event,
          events_since s s' = before ++ EvClose (next_open s) :: after
          /\ Forall (fun e => ~ is_write e) after
          /\ (EvClose (next_open s) ∉ before)
          /\ (EvClose (next_open s) ∉ after))
    /\ (EvClose (g_crash_fd s) ∉ events_since s s')
    /\ g_crash_file_path s' = g_crash_file_path s
    /\ g_crash_fd s' = g_crash_fd s
    /\ g_old_handlers s' = g_old_handlers s
    /\ g_write_buffer s' = g_write_buffer s.
Proof.
  intros Hreg. destruct (registration_path s Hreg) as [p Hp].
  exists (handler_result sig info p s).
  split; [by apply crash_signal_handler_run|].
  rewrite handler_result_events.
  assert (forall fd fd', EvClose fd ∉ report_events fd' sig (si_addr info)
            (recorded_pcs MAX_BACKTRACE_DEPTH (k_frames s))) as Hrep.
  { intros fd fd' Hin.
    pose proof (report_events_writes fd' sig (si_addr info)
                  (recorded_pcs MAX_BACKTRACE_DEPTH (k_frames s))) as Hw.
    rewrite Forall_forall in Hw. by destruct (Hw _ Hin) as [data ?]. }
  assert (forall fd, EvClose fd ∉ restore_part sig s ++ [EvRaise sig]) as Hres.
  { intros fd Hin.
    pose proof (restore_part_no_write sig s) as Hw.
    rewrite Forall_forall in Hw. unfold restore_part in *.
    destruct (restored_action sig s); cbn [app] in Hin;
      repeat (apply elem_of_cons in Hin as [Hin|Hin]; [discriminate|]);
      by apply elem_of_nil in Hin. }
  assert (forall fd : Z,
    EvClose fd ∈ handler_events sig info p s
    <-> fd = next_open s /\ 0 <= next_open s /\ next_open s <> g_crash_fd s) as Hiff.
  { intros fd. unfold handler_events, report_part, report_fd.
    rewrite elem_of_cons, elem_of_app. split.
    - intros [Heq|[Hin|Hin]]; [discriminate| |by destruct (Hres fd)].
      destruct (decide (next_open s < 0)) as [Hfail|Hfresh].
      + case_decide; [|by apply elem_of_nil in Hin].
        rewrite decide_False in Hin by (intros H'; by apply H').
        rewrite app_nil_r in Hin. by destruct (Hrep fd (g_crash_fd s)).
      + rewrite decide_True in Hin by lia.
        apply elem_of_app in Hin as [Hin|Hin];
          [by destruct (Hrep fd (next_open s))|].
        case_decide; [|by apply elem_of_nil in Hin].
        apply list_elem_of_singleton in Hin. injection Hin as ->.
        split; [done|split; [lia|done]].
    - intros (-> & Hfresh & Hne). right. left.
      rewrite (decide_False (P := next_open s < 0)) by lia.
      rewrite decide_True by done. rewrite decide_True by done.
      apply elem_of_app. right. by apply list_elem_of_singleton. }
  split; [exact Hiff|]. split; [|split].
  - intros Hfresh Hne.
    exists (EvOpen p open_flags 420 (next_open s)
              :: report_events (next_open s) sig (si_addr info)
                   (recorded_pcs MAX_BACKTRACE_DEPTH (k_frames s))),
      (restore_part sig s ++ [EvRaise sig]).
    split; [|split; [apply restore_part_no_write|split; [|apply Hres]]].
    + unfold handler_events, report_part, report_fd.
      rewrite (decide_False (P := next_open s < 0)) by lia.
      rewrite decide_True by done. rewrite decide_True by done.
      rewrite <- app_assoc. reflexivity.
    + rewrite elem_of_cons. intros [?|?]; [done|by destruct (Hrep (next_open s) (next_open s))].
  - rewrite Hiff. intros (E & _ & Hne). by apply Hne.
  - done.
Qed.

Lemma handler_closes_fresh_descriptor_witness :
  exists s' : state,
    crash_signal_handler SIGBUS (mk_siginfo SIGBUS 4096)
      (set_crash_fd 3 (initial_state ∅ [4] [8192])) = Some (tt, s')
    /\ EvClose 4 ∈ events_since (set_crash_fd 3 (initial_state ∅ [4] [8192])) s'
    /\ g_crash_fd s' = 3.
Proof.
  destruct (handler_closes_fresh_descriptor SIGBUS (mk_siginfo SIGBUS 4096)
              (set_crash_fd 3 (initial_state ∅ [4] [8192])))
    as (s' & Hrun & Hclose & _ & _ & _ & Hfd & _).
  - split; [by eexists|split; reflexivity].
  - exists s'. split; [exact Hrun|]. split; [|exact Hfd].
    apply Hclose. vm_compute. repeat split; discriminate.
Defined.

(** ** crash_handler_init in closed form *)

Lemma install_handlers_run (sa : sigaction_t) (fuel : nat) :
  forall (k : nat) (s : state),
    length (g_old_handlers s) = 6%nat -> (k <= 6)%nat -> (6 - k < fuel)%nat ->
    install_handlers fuel sa (Z.of_nat k) s
    = Some (tt, install_all sa k (drop k g_signals) s).
Proof.
  induction fuel as [|fuel IH]; intros k s Hlen Hk Hfuel; [lia|].
  cbn [install_handlers]. unfold g_num_signals. case_decide as Hc.
  - destruct (lookup_lt_is_Some_2 g_signals k) as [sig Hsig]; [simpl; lia|].
    destruct (monitored_signal_valid sig k) as [_ Hvalid];
      [by apply signal_index_lookup|].
    run_by ltac:(apply lift_run; rewrite load_nat; exact Hsig).
    run_by ltac:(by apply sys_sigaction_run).
    rewrite bind_assoc_run. run_gets. state_simpl.
    rewrite bind_assoc_run.
    run_by ltac:(apply lift_run, store_nat; lia).
    run_modify.
    replace (Z.of_nat k + 1) with (Z.of_nat (S k)) by lia.
    rewrite IH; [|state_simpl; by rewrite length_insert|lia|lia].
    rewrite (drop_S g_signals sig k Hsig). reflexivity.
  - assert (k = 6)%nat as -> by lia. reflexivity.
Qed.

Lemma install_all_frame (sa : sigaction_t) (sigs : list Z) :
  forall (i : nat) (s : state),
    g_crash_file_path (install_all sa i sigs s) = g_crash_file_path s
    /\ g_crash_fd (install_all sa i sigs s) = g_crash_fd s
    /\ g_write_buffer (install_all sa i sigs s) = g_write_buffer s
    /\ g_backtrace_buffer (install_all sa i sigs s) = g_backtrace_buffer s
    /\ k_open (install_all sa i sigs s) = k_open s
    /\ k_frames (install_all sa i sigs s) = k_frames s
    /\ length (g_old_handlers (install_all sa i sigs s)) = length (g_old_handlers s)
    /\ k_trace (install_all sa i sigs s)
       = k_trace s ++ ((fun sig => EvSigaction sig (Some sa)) <$> sigs).
Proof.
  induction sigs as [|sig sigs IH]; intros i s; cbn [install_all].
  - repeat split; try reflexivity. by rewrite app_nil_r.
  - destruct (IH (S i) (install_one sa i sig s))
      as (-> & -> & -> & -> & -> & -> & -> & ->).
    unfold install_one. state_simpl. rewrite length_insert.
    repeat split; try reflexivity. by rewrite <- app_assoc.
Qed.

Lemma action_of_install_one (sa : sigaction_t) (i : nat) (sig sig' : Z) (s : state) :
  action_of (install_one sa i sig s) sig'
  = if decide (sig = sig') then sa else action_of s sig'.
Proof.
  unfold action_of, install_one. state_simpl. rewrite lookup_insert.
  by case_decide.
Qed.

(** The installation loop over distinct signals: the table receives the
    previous action of each signal at its position, and the signals of the
    list, and only they, get the new action. *)
Lemma install_all_spec (sa : sigaction_t) (sigs : list Z) :
  NoDup sigs ->
  forall (i : nat) (s : state),
    (i + length sigs <= length (g_old_handlers s))%nat ->
    (forall (j : nat) (sig : Z),
       sigs !! j = Some sig ->
       g_old_handlers (install_all sa i sigs s) !! (i + j)%nat = Some (action_of s sig)
       /\ action_of (install_all sa i sigs s) sig = sa)
    /\ (forall j : nat,
          (j < i)%nat ->
          g_old_handlers (install_all sa i sigs s) !! j = g_old_handlers s !! j)
    /\ (forall sig : Z,
          sig ∉ sigs -> action_of (install_all sa i sigs s) sig = action_of s sig).
Proof.
  induction 1 as [|x xs Hx Hnd IH]; intros i s Hlen; cbn [install_all].
  - split; [intros j sig Hj; by rewrite lookup_nil in Hj|done].
  - cbn [length] in Hlen.
    destruct (IH (S i) (install_one sa i x s)) as (Hin & Hbefore & Hout).
    { unfold install_one. state_simpl. rewrite length_insert. lia. }
    split; [|split].
    + intros [|j] sig Hj.
      * injection Hj as <-. rewrite Nat.add_0_r. split.
        -- rewrite Hbefore by lia. unfold install_one. state_simpl.
           apply list_lookup_insert_eq. lia.
        -- rewrite Hout by done. rewrite action_of_install_one.
           by rewrite decide_True.
      * cbn [lookup list_lookup] in Hj.
        destruct (Hin j sig Hj) as [Hold Hact].
        replace (i + S j)%nat with (S i + j)%nat by lia.
        split; [|done]. rewrite Hold. f_equal.
        rewrite action_of_install_one. rewrite decide_False; [done|].
        intros ->. apply Hx. by eapply list_elem_of_lookup_2.
    + intros j Hj. rewrite Hbefore by lia. unfold install_one. state_simpl.
      apply list_lookup_insert_ne. lia.
    + intros sig Hsig. apply not_elem_of_cons in Hsig as [Hne Hsig].
      rewrite Hout by done. rewrite action_of_install_one.
      by rewrite decide_False.
Qed.

Lemma g_signals_NoDup : NoDup g_signals.
Proof. apply (bool_decide_unpack _). vm_compute. exact I. Qed.

Lemma crash_handler_init_run (text rest : list char) (s : state) :
  armable s -> Forall (fun c => c <> NUL) text ->
  crash_handler_init (text ++ NUL :: rest) s = Some (tt, init_result text s).
Proof.
  intros (Hpath & _ & Hold) Htext. unfold crash_handler_init.
  run_gets.
  assert (exists n : nat,
    Z.of_nat n = Z.min (Z.of_nat (length text)) (Z.of_nat (length (g_crash_file_path s)) - 1)
    /\ take n text = take 255 text) as (n & Hn & Htake).
  { rewrite Hpath. destruct (decide (length text <= 255)%nat).
    - exists (length text). split; [lia|]. by rewrite !take_ge by lia.
    - exists 255%nat. split; [lia|done]. }
  run_by ltac:(apply lift_run, (safe_strcpy_spec _ text rest _ n); [done|lia|exact Hn]).
  run_modify.
  run_by ltac:(apply sys_open_run, c_string_spec; done).
  run_modify.
  change (Z.to_nat g_num_signals) with 6%nat.
  change 0 with (Z.of_nat 0).
  rewrite install_handlers_run; [|state_simpl; exact Hold|lia|lia].
  rewrite drop_0. unfold init_result. fold open_flags. fold crash_sigaction.
  rewrite Htake.
  replace (S n) with (S (length (take 255 text)))
    by (rewrite <- Htake, length_take; lia).
  reflexivity.
Qed.

Lemma init_result_fields (text : list char) (s : state) :
  armable s ->
  g_crash_file_path (init_result text s)
  = take 255 text ++ NUL :: drop (S (length (take 255 text))) (g_crash_file_path s)
  /\ g_crash_fd (init_result text s) = next_open s
  /\ g_backtrace_buffer (init_result text s) = g_backtrace_buffer s
  /\ length (g_old_handlers (init_result text s)) = 6%nat
  /\ k_trace (init_result text s)
     = k_trace s ++ EvOpen text open_flags 420 (next_open s)
         :: ((fun sig => EvSigaction sig (Some crash_sigaction)) <$> g_signals)
  /\ (forall (i : nat) (sig : Z),
        g_signals !! i = Some sig ->
        g_old_handlers (init_result text s) !! i = Some (action_of s sig)
        /\ action_of (init_result text s) sig = crash_sigaction)
  /\ (forall sig : Z,
        sig ∉ g_signals -> action_of (init_result text s) sig = action_of s sig).
Proof.
  intros (Hpath & Hbt & Hold). unfold init_result.
  set (s1 := set_crash_fd _ _).
  destruct (install_all_frame crash_sigaction g_signals 0 s1)
    as (-> & -> & _ & -> & _ & _ & -> & ->).
  destruct (install_all_spec crash_sigaction g_signals g_signals_NoDup 0 s1)
    as (Hin & _ & Hout);
    [subst s1; state_simpl; rewrite Hold; unfold g_signals, g_num_signals; simpl; lia|].
  subst s1. state_simpl.
  split; [done|]. split; [done|]. split; [done|]. split; [exact Hold|].
  split; [by rewrite <- app_assoc|]. split.
  - intros i sig Hi. exact (Hin i sig Hi).
  - exact Hout.
Qed.

(** C8: [crash_handler_init] stores the path in the path buffer through the
    bounded copy, which keeps the buffer's size and cuts the path to its
    first 255 characters; it opens the file at the path it was given and
    keeps what [open] returned, negative on failure, as the fallback
    descriptor; and for each of the six monitored signals it installs the
    fault handler and saves the action the signal had in the table entry at
    the signal's position in the monitored set.  Other signals keep their
    action. *)
Theorem crash_handler_init_arms (text rest : list char) (s : state) :
  armable s -> Forall (fun c => c <> NUL) text ->
  exists s' : state,
    crash_handler_init (text ++ NUL :: rest) s = Some (tt, s')
    /\ c_string (g_crash_file_path s') = Some (take 255 text)
    /\ length (g_crash_file_path s') = length (g_crash_file_path s)
    /\ events_since s s'
       = EvOpen text open_flags 420 (next_open s)
         :: ((fun sig => EvSigaction sig (Some crash_sigaction)) <$> g_signals)
    /\ g_crash_fd s' = next_open s
    /\ (next_open s < 0 -> g_crash_fd s' < 0)
    /\ (forall (i : nat) (sig : Z),
          g_signals !! i = Some sig ->
          action_of s' sig = crash_sigaction
          /\ g_old_handlers s' !! i = Some (action_of s sig))
    /\ (forall sig : Z, sig ∉ g_signals -> action_of s' sig = action_of s sig)
    /\ length g_signals = 6%nat
    /\ registration_ok s'.
Proof.
  intros Harm Htext. exists (init_result text s).
  destruct (init_result_fields text s Harm)
    as (Hpath & Hfd & Hbt & Hold & Htrace & Hin & Hout).
  destruct Harm as (Hplen & Hbtlen & Holdlen).
  assert (c_string (g_crash_file_path (init_result text s)) = Some (take 255 text))
    as Hstr by (rewrite Hpath; by apply c_string_spec, Forall_take).
  split; [by apply crash_handler_init_run|]. split; [exact Hstr|]. split.
  { rewrite Hpath, length_app. cbn [length]. rewrite length_drop, length_take. lia. }
  split; [by apply events_since_app|]. split; [exact Hfd|].
  split; [by rewrite Hfd|]. split.
  { intros i sig Hi. destruct (Hin i sig Hi). by split. }
  split; [exact Hout|]. split; [reflexivity|].
  split; [by eexists|]. split; [by rewrite Hbt|exact Hold].
Qed.

Lemma crash_handler_init_arms_witness :
  exists s' : state,
    crash_handler_init (cstr "/data/crash.log") (initial_state ∅ [3] [])
    = Some (tt, s')
    /\ c_string (g_crash_file_path s')
       = Some (take 255 (list_ascii_of_string "/data/crash.log"))
    /\ g_crash_fd s' = 3.
Proof.
  destruct (crash_handler_init_arms (list_ascii_of_string "/data/crash.log") []
              (initial_state ∅ [3] []))
    as (s' & Hrun & Hpath & _ & _ & Hfd & _).
  - repeat split.
  - repeat constructor; discriminate.
  - exists s'. split; [exact Hrun|]. split; [exact Hpath|exact Hfd].
Defined.

(** C2: for a monitored signal the handler restores, as the action of that
    signal, the entry of the Original-Handler Table at the signal's
    position in the monitored set, and only then re-raises the signal; for a
    signal outside the set it installs nothing and re-raises.  So, when the
    handler runs in a process armed by [crash_handler_init], the action of
    the signal is afterwards the one it had before arming: a second delivery
    of the signal goes to that action, not to the fault handler. *)
Theorem handler_restores_original (sig : Z) (info : siginfo_t) (s : state) :
  registration_ok s ->
  exists s' : state,
    crash_signal_handler sig info s = Some (tt, s')
    /\ (forall (i : nat) (old : sigaction_t),
          g_signals !! i = Some sig -> g_old_handlers s !! i = Some old ->
          (exists before : list event,
             events_since s s' = before ++ [EvSigaction sig (Some old); EvRaise sig]
             /\ Forall (fun e => ~ is_sigaction e) before)
          /\ action_of s' sig = old)
    /\ ((sig ∉ g_signals) ->
        Forall (fun e => ~ is_sigaction e) (events_since s s')
        /\ k_actions s' = k_actions s
        /\ last (events_since s s') = Some (EvRaise sig))
    /\ (forall sig' : Z, sig' <> sig -> action_of s' sig' = action_of s sig')
    /\ (forall (s0 : state) (text rest : list char),
          armable s0 -> Forall (fun c => c <> NUL) text ->
          crash_handler_init (text ++ NUL :: rest) s0 = Some (tt, s) ->
          sig ∈ g_signals ->
          action_of s sig = crash_sigaction
          /\ action_of s' sig = action_of s0 sig).
Proof.
  intros Hreg. destruct (registration_path s Hreg) as [p Hp].
  exists (handler_result sig info p s).
  split; [by apply crash_signal_handler_run|].
  rewrite handler_result_events.
  assert (Forall (fun e => ~ is_sigaction e)
            (EvOpen p open_flags 420 (next_open s) :: report_part sig info s))
    as Hreport.
  { constructor; [by intros []|]. unfold report_part. case_decide; [|constructor].
    apply Forall_app. split.
    - eapply Forall_impl; [apply report_events_writes|].
      by intros e [data ->] [].
    - case_decide; repeat constructor. by intros []. }
  assert (forall (i : nat) (old : sigaction_t),
            g_signals !! i = Some sig -> g_old_handlers s !! i = Some old ->
            restored_action sig s = Some old) as Hrestored.
  { intros i old Hi Hold. unfold restored_action.
    apply signal_index_lookup in Hi. rewrite Hi. exact Hold. }
  assert (forall (i : nat) (old : sigaction_t),
            g_signals !! i = Some sig -> g_old_handlers s !! i = Some old ->
            action_of (handler_result sig info p s) sig = old) as Haction.
  { intros i old Hi Hold. unfold action_of, handler_result. cbn [k_actions].
    rewrite (Hrestored i old Hi Hold). by rewrite lookup_insert_eq. }
  split; [|split; [|split]].
  - intros i old Hi Hold. split; [|by apply (Haction i old)].
    exists (EvOpen p open_flags 420 (next_open s) :: report_part sig info s).
    split; [|exact Hreport].
    unfold handler_events, restore_part. rewrite (Hrestored i old Hi Hold).
    reflexivity.
  - intros Hout. apply signal_index_None in Hout.
    assert (restored_action sig s = None) as Hnone
      by (unfold restored_action; by rewrite Hout).
    unfold handler_events, restore_part, handler_result.
    cbn [k_actions]. rewrite Hnone. cbn [app].
    split; [|split; [done|]].
    + rewrite app_comm_cons. apply Forall_app. split; [exact Hreport|].
      repeat constructor. by intros [].
    + rewrite app_comm_cons. apply last_snoc.
  - intros sig' Hne. unfold action_of, handler_result. cbn [k_actions].
    destruct (restored_action sig s); [|done]. by rewrite lookup_insert_ne.
  - intros s0 text rest Harm Htext Hinit Hin.
    rewrite crash_handler_init_run in Hinit by done.
    injection Hinit as <-.
    destruct (init_result_fields text s0 Harm) as (_ & _ & _ & _ & _ & Hmon & _).
    apply list_elem_of_lookup in Hin as [i Hi].
    destruct (Hmon i sig Hi) as [Hold Hact].
    split; [exact Hact|]. by apply (Haction i).
Qed.

Lemma handler_restores_original_witness :
  exists s' : state,
    crash_signal_handler SIGFPE (mk_siginfo SIGFPE 0)
      (init_result (list_ascii_of_string "/c")
         (initial_state {[SIGFPE := mk_sigaction (fn_other 64) 0 []]} [3; 4] []))
    = Some (tt, s')
    /\ action_of s' SIGFPE = mk_sigaction (fn_other 64) 0 [].
Proof.
  destruct (handler_restores_original SIGFPE (mk_siginfo SIGFPE 0)
              (init_result (list_ascii_of_string "/c")
                 (initial_state {[SIGFPE := mk_sigaction (fn_other 64) 0 []]}
                    [3; 4] [])))
    as (s' & Hrun & Hmon & _).
  - split; [by eexists|split; reflexivity].
  - exists s'. split; [exact Hrun|].
    apply (Hmon 3%nat); reflexivity.
Defined.

Example second_delivery_reaches_previous_handler :
  (crash_handler_init (cstr "/c")
     (initial_state {[SIGFPE := mk_sigaction (fn_other 64) 0 []]} [3; 4] [])
   ≫= fun r1 => crash_signal_handler SIGFPE (mk_siginfo SIGFPE 0) r1.2
   ≫= fun r2 => Some (action_of r1.2 SIGFPE, action_of r2.2 SIGFPE))
  = Some (crash_sigaction, mk_sigaction (fn_other 64) 0 []).
Proof. vm_compute. reflexivity. Qed.

(** * Further properties of the code *)

(** ** safe_itoa on every value *)

Lemma itoa_text_any (v b : Z) :
  2 <= b <= 16 -> 0 <= v ->
  (1 <= length (itoa_text b v) <= 23)%nat /\ Forall lower_hex (itoa_text b v).
Proof.
  intros Hb Hv. unfold itoa_text. case_decide as Hz.
  - split; [simpl; lia|repeat constructor].
  - split; [|by apply low_digits_lower_hex].
    rewrite length_reverse, length_fmap.
    pose proof (low_digits_at_most 23 b v).
    pose proof (low_digits_positive 22 b v ltac:(lia)). lia.
Qed.

(** X1: for every non-negative value and every base from 2 to 16,
    [safe_itoa] on a buffer of [INT_BUFFER_SIZE] bytes or more returns,
    writes between 1 and [INT_BUFFER_SIZE - 1] lowercase digits and the
    terminator, and leaves the size of the buffer and every byte from index
    [INT_BUFFER_SIZE] on as they were: whatever the value, it stays inside
    a buffer of [INT_BUFFER_SIZE] bytes. *)
Theorem safe_itoa_never_overflows (v b : Z) (buffer : list char) :
  0 <= v -> 2 <= b <= 16 -> INT_BUFFER_SIZE <= Z.of_nat (length buffer) ->
  exists (buffer' ds : list char),
    safe_itoa v buffer b = Some (buffer', Z.of_nat (length ds))
    /\ c_string buffer' = Some ds
    /\ 1 <= Z.of_nat (length ds) <= INT_BUFFER_SIZE - 1
    /\ Forall lower_hex ds
    /\ length buffer' = length buffer
    /\ (forall k : nat, INT_BUFFER_SIZE <= Z.of_nat k -> buffer' !! k = buffer !! k).
Proof.
  intros Hv Hb Hlen. unfold INT_BUFFER_SIZE in *.
  destruct (itoa_text_any v b Hb Hv) as [Hl Hhex].
  exists (itoa_text b v ++ NUL :: drop (S (length (itoa_text b v))) buffer),
    (itoa_text b v).
  split; [apply safe_itoa_run; (done || lia)|].
  split; [by apply c_string_spec, Forall_lower_hex_not_NUL|].
  split; [lia|]. split; [done|]. split.
  - rewrite length_app. cbn [length]. rewrite length_drop. lia.
  - intros k Hk. rewrite lookup_app_r by lia.
    replace (k - length (itoa_text b v))%nat
      with (S (k - S (length (itoa_text b v)))) by lia.
    cbn [lookup list_lookup]. etrans; [apply lookup_drop|]. f_equal. lia.
Qed.

Lemma safe_itoa_never_overflows_witness :
  exists (buffer' ds : list char),
    safe_itoa 18446744073709551615 (replicate 30 indeterminate) 2
    = Some (buffer', Z.of_nat (length ds))
    /\ c_string buffer' = Some ds
    /\ length buffer' = 30%nat.
Proof.
  destruct (safe_itoa_never_overflows 18446744073709551615 2
              (replicate 30 indeterminate))
    as (buffer' & ds & Hrun & Hstr & _ & _ & Hlen & _).
  - lia.
  - lia.
  - vm_compute. discriminate.
  - exists buffer', ds. split; [exact Hrun|]. split; [exact Hstr|exact Hlen].
Defined.

(** Decoding the digits [temp] received gives the value modulo [b ^ n]. *)
Lemma parse_low_digits_mod (b : Z) (Hb : 2 <= b <= 16) (n : nat) :
  forall v, 0 <= v ->
    parse_digits_from b 0 (reverse (digit_char <$> low_digits n b v))
    = Some (v mod b ^ Z.of_nat n).
Proof.
  induction n as [|n IH]; intros v Hv.
  - simpl. by rewrite Z.mod_1_r.
  - cbn [low_digits]. case_decide as Hpos.
    + rewrite fmap_cons, reverse_cons, parse_digits_from_snoc.
      rewrite IH by (apply Z.div_pos; lia). cbn [mbind option_bind].
      assert (0 <= v `mod` b < 16) as Hd by (pose proof (Z.mod_pos_bound v b); lia).
      destruct (digit_char_spec _ Hd) as (_ & -> & _). cbn [mbind option_bind].
      rewrite decide_True by (pose proof (Z.mod_pos_bound v b); lia).
      f_equal. rewrite Nat2Z.inj_succ, Z.pow_succ_r by lia.
      rewrite Z.rem_mul_r by lia. lia.
    + assert (v = 0) as -> by lia. simpl. by rewrite Z.mod_0_l by lia.
Qed.

(** A value of at least [b ^ k] has more than [k] digits, if there is room. *)
Lemma low_digits_at_least (b : Z) (Hb : 2 <= b) (k : nat) :
  forall (n : nat) v, b ^ Z.of_nat k <= v -> (k < n)%nat ->
    (S k <= length (low_digits n b v))%nat.
Proof.
  induction k as [|k IH]; intros n v Hv Hn; (destruct n as [|n]; [lia|]).
  - cbn [low_digits]. rewrite decide_True by (simpl in Hv; lia). simpl. lia.
  - rewrite Nat2Z.inj_succ, Z.pow_succ_r in Hv by lia.
    assert (0 < b ^ Z.of_nat k) by (apply Z.pow_pos_nonneg; lia).
    cbn [low_digits]. rewrite decide_True by nia. cbn [length].
    apply le_n_S, IH; [|lia]. apply Z.div_le_lower_bound; lia.
Qed.

(** X2: a value with more than [INT_BUFFER_SIZE - 1] digits in base [b] is
    truncated without notice: [safe_itoa] writes exactly
    [INT_BUFFER_SIZE - 1] digits, the least significant ones, so that the
    text decodes to the value modulo [b ^ (INT_BUFFER_SIZE - 1)]; the most
    significant digits are lost. *)
Theorem safe_itoa_truncation (v b : Z) (buffer : list char) :
  2 <= b <= 16 -> b ^ (INT_BUFFER_SIZE - 1) <= v ->
  INT_BUFFER_SIZE <= Z.of_nat (length buffer) ->
  exists ds : list char,
    safe_itoa v buffer b
    = Some (ds ++ NUL :: drop (Z.to_nat INT_BUFFER_SIZE) buffer, INT_BUFFER_SIZE - 1)
    /\ Z.of_nat (length ds) = INT_BUFFER_SIZE - 1
    /\ parse_digits b ds = Some (v mod b ^ (INT_BUFFER_SIZE - 1))
    /\ v mod b ^ (INT_BUFFER_SIZE - 1) <> v.
Proof.
  intros Hb Hv Hlen. unfold INT_BUFFER_SIZE in *.
  change (24 - 1) with (Z.of_nat 23) in *.
  assert (0 < b ^ Z.of_nat 23) as Hpow by (apply Z.pow_pos_nonneg; lia).
  assert (length (itoa_text b v) = 23%nat) as Hl.
  { unfold itoa_text. rewrite decide_False by lia.
    rewrite length_reverse, length_fmap.
    pose proof (low_digits_at_most 23 b v).
    assert (b ^ Z.of_nat 22 <= v).
    { etrans; [|exact Hv]. apply Z.pow_le_mono_r; lia. }
    pose proof (low_digits_at_least b ltac:(lia) 22 23 v ltac:(done) ltac:(lia)).
    lia. }
  exists (itoa_text b v). split; [|split; [lia|split]].
  - rewrite (safe_itoa_run v b buffer) by lia. by rewrite Hl.
  - destruct (itoa_text b v) as [|c ds] eqn:E; [discriminate Hl|].
    unfold parse_digits. rewrite <- E. unfold itoa_text.
    rewrite decide_False by lia. apply parse_low_digits_mod; [done|lia].
  - pose proof (Z.mod_pos_bound v (b ^ Z.of_nat 23) Hpow). lia.
Qed.

Lemma safe_itoa_truncation_witness :
  exists ds : list char,
    safe_itoa 8388613 (replicate 24 indeterminate) 2
    = Some (ds ++ NUL :: drop (Z.to_nat INT_BUFFER_SIZE) (replicate 24 indeterminate),
            INT_BUFFER_SIZE - 1)
    /\ parse_digits 2 ds = Some 5.
Proof.
  destruct (safe_itoa_truncation 8388613 2 (replicate 24 indeterminate))
    as (ds & Hrun & _ & Hparse & _).
  - lia.
  - vm_compute. discriminate.
  - vm_compute. discriminate.
  - exists ds. split; [exact Hrun|exact Hparse].
Defined.

(** X3: the count [safe_itoa] returns is the number of digits of the value:
    [k + 1] for a value from [b ^ k] up to [b ^ (k + 1) - 1], as long as
    [k + 1] digits fit. *)
Theorem safe_itoa_digit_count (k : nat) (v b : Z) (buffer : list char) :
  2 <= b <= 16 -> b ^ Z.of_nat k <= v < b ^ (Z.of_nat k + 1) ->
  Z.of_nat k + 1 <= INT_BUFFER_SIZE - 1 ->
  INT_BUFFER_SIZE <= Z.of_nat (length buffer) ->
  exists buffer' : list char,
    safe_itoa v buffer b = Some (buffer', Z.of_nat k + 1)
    /\ c_strlen buffer' = Some (Z.of_nat k + 1).
Proof.
  intros Hb Hv Hk Hlen. unfold INT_BUFFER_SIZE in *.
  assert (0 < b ^ Z.of_nat k) as Hpow by (apply Z.pow_pos_nonneg; lia).
  replace (Z.of_nat k + 1) with (Z.of_nat (S k)) in * by lia.
  destruct (itoa_text_fits (S k) v b) as ((_ & Hhex & _) & Hupper & _);
    [done|lia|lia|].
  assert (length (itoa_text b v) = S k) as Hl.
  { apply Nat.le_antisymm; [lia|].
    unfold itoa_text. rewrite decide_False by lia.
    rewrite length_reverse, length_fmap.
    apply low_digits_at_least; lia. }
  exists (itoa_text b v ++ NUL :: drop (S (length (itoa_text b v))) buffer).
  split.
  - rewrite (safe_itoa_run v b buffer) by lia. by rewrite Hl.
  - rewrite <- Hl. by apply c_strlen_spec, Forall_lower_hex_not_NUL.
Qed.

Lemma safe_itoa_digit_count_witness :
  exists buffer' : list char,
    safe_itoa 4096 (replicate 24 indeterminate) 16 = Some (buffer', Z.of_nat 3 + 1)
    /\ c_strlen buffer' = Some (Z.of_nat 3 + 1).
Proof.
  apply (safe_itoa_digit_count 3 4096 16 (replicate 24 indeterminate)).
  - lia.
  - vm_compute. split; [discriminate|reflexivity].
  - vm_compute. discriminate.
  - vm_compute. discriminate.
Defined.

(** ** safe_strcpy at its edges *)

(** The loop on a source whose first [c - 1] characters hold no
    terminator: it stops at index [c - 1], having read the character there
    without looking at its value. *)
Lemma safe_strcpy_loop_window (s rest : list char) (x : char) (c : Z) (fuel : nat) :
  Forall (fun y => y <> NUL) s -> Z.of_nat (length s) = c - 1 ->
  forall (dest : list char) (k : nat),
    (k <= length s)%nat -> (length s <= length dest)%nat ->
    (length s - k < fuel)%nat ->
    safe_strcpy_loop fuel dest (s ++ x :: rest) c (Z.of_nat k)
    = Some (take k dest ++ drop k s ++ drop (length s) dest, Z.of_nat (length s)).
Proof.
  intros Hs Hc. induction fuel as [|fuel IH]; intros dest k Hk Hdest Hfuel; [lia|].
  cbn [safe_strcpy_loop]. rewrite load_nat.
  destruct (decide (k < length s)%nat) as [Hlt|Hge].
  - destruct (lookup_lt_is_Some_2 s k Hlt) as [y Hy].
    rewrite (lookup_app_l_Some _ _ _ _ Hy). cbn [mbind option_bind].
    assert (y <> NUL) as Hnn by (eapply Forall_lookup_1 in Hs; eauto).
    rewrite decide_True by (split; [done|lia]).
    rewrite store_nat by lia. cbn [mbind option_bind].
    replace (Z.of_nat k + 1) with (Z.of_nat (S k)) by lia.
    rewrite IH; [|lia|rewrite length_insert; lia|lia].
    rewrite take_S_insert by lia. rewrite drop_after_insert by lia.
    rewrite <- app_assoc. cbn [app]. by rewrite (drop_S s y k Hy).
  - assert (k = length s) as -> by lia.
    rewrite list_lookup_middle by done. cbn [mbind option_bind].
    rewrite decide_False by (intros [_ H]; lia).
    rewrite drop_all. cbn [app]. by rewrite take_drop.
Qed.

(** X4: [safe_strcpy] looks at the first [c] bytes of the source only.
    When the first [c - 1] characters hold no terminator it copies them,
    reads the byte at index [c - 1] without using its value, and
    terminates the destination at index [c - 1]: the result is the same
    whatever that byte is and whatever follows it, terminated or not. *)
Theorem safe_strcpy_source_window (dest s rest : list char) (x : char) (c : Z) :
  Forall (fun y => y <> NUL) s -> Z.of_nat (length s) = c - 1 ->
  c <= Z.of_nat (length dest) ->
  safe_strcpy dest (s ++ x :: rest) c
  = Some (s ++ NUL :: drop (S (length s)) dest, c - 1).
Proof.
  intros Hs Hc Hdest. unfold safe_strcpy.
  rewrite decide_False by (unfold INT_MIN; lia).
  change 0 with (Z.of_nat 0).
  rewrite (safe_strcpy_loop_window s rest x c)
    by (done || lia || (rewrite length_app; simpl; lia)).
  cbn [mbind option_bind]. rewrite take_0, drop_0. cbn [app].
  rewrite store_nat by (rewrite length_app, length_drop; lia).
  cbn [mbind option_bind]. rewrite <- Hc. do 2 f_equal.
  rewrite insert_middle;
    [|rewrite length_app, length_drop; lia|apply take_app_length].
  do 2 f_equal. rewrite drop_app_ge by lia. rewrite drop_drop. f_equal. lia.
Qed.

Lemma safe_strcpy_source_window_witness :
  safe_strcpy (replicate 4 indeterminate)
    (list_ascii_of_string "abc" ++ "d"%char :: list_ascii_of_string "ef") 4
  = Some (list_ascii_of_string "abc"
            ++ NUL :: drop (S (length (list_ascii_of_string "abc")))
                        (replicate 4 indeterminate),
          4 - 1).
Proof.
  apply (safe_strcpy_source_window (replicate 4 indeterminate)
           (list_ascii_of_string "abc") (list_ascii_of_string "ef") "d"%char 4).
  - repeat constructor; discriminate.
  - reflexivity.
  - vm_compute. discriminate.
Defined.

Lemma safe_strcpy_loop_S (fuel : nat) (dest src : list char) (max_len i : Z) :
  safe_strcpy_loop (S fuel) dest src max_len i
  = (c ← load src i;
     if decide (c <> NUL /\ i < max_len - 1) then
       dest' ← store dest i c;
       safe_strcpy_loop fuel dest' src max_len (i + 1)
     else Some (dest, i)).
Proof. reflexivity. Qed.

(** X5: with a capacity of one, zero or less, [safe_strcpy] copies nothing
    and still writes the terminator to [dest[0]]: the destination becomes
    the empty string, bytes after the first are untouched, and the first
    byte is written even when the capacity announced is zero or negative. *)
Theorem safe_strcpy_small_capacity (d0 x : char) (dest src : list char) (c : Z) :
  INT_MIN < c <= 1 ->
  safe_strcpy (d0 :: dest) (x :: src) c = Some (NUL :: dest, 0).
Proof.
  intros Hc. unfold safe_strcpy. rewrite decide_False by lia.
  rewrite safe_strcpy_loop_S. change 0 with (Z.of_nat 0).
  rewrite load_nat. cbn [lookup list_lookup mbind option_bind].
  rewrite decide_False by (intros [_ H]; lia).
  cbn [mbind option_bind]. rewrite store_nat by (cbn [length]; lia).
  reflexivity.
Qed.

Lemma safe_strcpy_small_capacity_witness :
  safe_strcpy ("?"%char :: [indeterminate]) ("a"%char :: cstr "bc") (-3)
  = Some (NUL :: [indeterminate], 0).
Proof.
  apply (safe_strcpy_small_capacity "?"%char "a"%char [indeterminate] (cstr "bc") (-3)).
  vm_compute. split; [reflexivity|discriminate].
Defined.

(** X6: reading back what [safe_strcpy] stored gives the first [c - 1]
    characters of the source, and the count returned is the length of the
    stored string; a source shorter than the capacity is stored whole. *)
Theorem safe_strcpy_read_back (dest s rest : list char) (c : Z) :
  Forall (fun x => x <> NUL) s ->
  1 <= c <= Z.of_nat (length dest) ->
  exists (dest' : list char) (n : Z),
    safe_strcpy dest (s ++ NUL :: rest) c = Some (dest', n)
    /\ c_string dest' = Some (take (Z.to_nat (c - 1)) s)
    /\ c_strlen dest' = Some n
    /\ (Z.of_nat (length s) < c -> c_string dest' = Some s /\ n = Z.of_nat (length s))
    /\ (c <= Z.of_nat (length s) -> n = c - 1).
Proof.
  intros Hs Hc.
  assert (exists n : nat, Z.of_nat n = Z.min (Z.of_nat (length s)) (c - 1))
    as [n Hn] by (exists (Z.to_nat (Z.min (Z.of_nat (length s)) (c - 1))); lia).
  assert (take (Z.to_nat (c - 1)) s = take n s) as Htake.
  { destruct (decide (Z.of_nat (length s) <= c - 1)).
    - by rewrite !take_ge by lia.
    - f_equal. lia. }
  assert (length (take n s) = n) as Hlen by (rewrite length_take; lia).
  assert (Forall (fun x => x <> NUL) (take n s)) as Hs' by by apply Forall_take.
  exists (take n s ++ NUL :: drop (S n) dest), (Z.of_nat n).
  split; [by apply safe_strcpy_spec|]. rewrite Htake.
  split; [by apply c_string_spec|]. split.
  - rewrite (c_strlen_spec _ _ Hs'). by rewrite Hlen.
  - split; [|lia]. intros Hfit. split; [|lia].
    rewrite <- (take_ge s n) at 2 by lia. by apply c_string_spec.
Qed.

Lemma safe_strcpy_read_back_witness :
  exists (dest' : list char) (n : Z),
    safe_strcpy (replicate 8 indeterminate) (cstr "crash") 8 = Some (dest', n)
    /\ c_string dest' = Some (list_ascii_of_string "crash")
    /\ n = 5.
Proof.
  destruct (safe_strcpy_read_back (replicate 8 indeterminate)
              (list_ascii_of_string "crash") [] 8)
    as (dest' & n & Hrun & _ & _ & Hfit & _).
  - repeat constructor; discriminate.
  - vm_compute. split; discriminate.
  - exists dest', n. split; [exact Hrun|]. apply Hfit. reflexivity.
Defined.

(** ** The signal names and the monitored set *)

(** X7: the names of [get_signal_name] and the set [g_signals] agree: a
    signal is named [UNKNOWN] exactly when it is not monitored, and two
    signals with the same name, one of them monitored, are the same signal.
    The first line of a report therefore identifies the monitored signal. *)
Theorem signal_names_identify_monitored (a b : Z) :
  a ∈ g_signals ->
  (get_signal_name a = get_signal_name b -> a = b)
  /\ get_signal_name a <> cstr "UNKNOWN"
  /\ (get_signal_name b = cstr "UNKNOWN" <-> b ∉ g_signals).
Proof.
  intros Ha.
  assert (forall x : Z,
    get_signal_name x = cstr "UNKNOWN" <-> x ∉ g_signals) as Hunknown.
  { intros x. unfold g_signals. rewrite !not_elem_of_cons.
    unfold get_signal_name.
    repeat (case_decide; [subst x; split; [discriminate|intros ?; tauto]|]).
    split; [|done]. intros _. repeat split; try done. apply not_elem_of_nil. }
  split; [|split; [|apply Hunknown]].
  - unfold g_signals in Ha. rewrite !elem_of_cons, elem_of_nil in Ha.
    unfold get_signal_name at 2.
    destruct Ha as [->|[->|[->|[->|[->|[->|[]]]]]]];
      repeat (case_decide; [subst b; first [reflexivity|discriminate]|]);
      discriminate.
  - rewrite Hunknown. tauto.
Qed.

Lemma signal_names_identify_monitored_witness :
  (get_signal_name SIGBUS = get_signal_name 15 -> SIGBUS = 15)
  /\ get_signal_name SIGBUS <> cstr "UNKNOWN"
  /\ (get_signal_name 15 = cstr "UNKNOWN" <-> 15 ∉ g_signals).
Proof.
  apply (signal_names_identify_monitored SIGBUS 15).
  unfold g_signals. rewrite !elem_of_cons. tauto.
Defined.

(** ** Captures that end early, record nothing, or are repeated *)

(** The walk when the frames hold fewer non-zero program counters than the
    state has room for: every frame is visited and the stack ends. *)
Lemma unwind_walk_complete (d : nat) (frames : list Z) :
  forall (buf : list Z) (cnt : nat),
    (cnt + length (filter (fun pc : Z => pc <> 0%Z) frames) < d)%nat ->
    (cnt + length (filter (fun pc : Z => pc <> 0%Z) frames) <= length buf)%nat ->
    _Unwind_Backtrace unwind_callback frames
      (mk_backtrace_state buf (Z.of_nat d) (Z.of_nat cnt))
    = Some (_URC_END_OF_STACK, length frames,
            mk_backtrace_state
              (take cnt buf ++ filter (fun pc : Z => pc <> 0%Z) frames
                 ++ drop (cnt + length (filter (fun pc : Z => pc <> 0%Z) frames)) buf)
              (Z.of_nat d)
              (Z.of_nat (cnt + length (filter (fun pc : Z => pc <> 0%Z) frames)))).
Proof.
  induction frames as [|pc frames IH]; intros buf cnt Hroom Hbuf.
  - cbn [_Unwind_Backtrace]. rewrite filter_nil. cbn [app length].
    by rewrite Nat.add_0_r, take_drop.
  - cbn [_Unwind_Backtrace]. rewrite unwind_callback_eq.
    destruct (decide (pc <> 0)) as [Hpc|Hpc].
    + rewrite filter_cons_True in Hroom, Hbuf |- * by done. cbn [length] in *.
      rewrite decide_False by lia.
      rewrite store_nat by lia. cbn [mbind option_bind].
      replace (Z.of_nat cnt + 1) with (Z.of_nat (S cnt)) by lia.
      rewrite IH; [|lia|rewrite length_insert; lia].
      cbn [mbind option_bind].
      rewrite take_S_insert by lia. rewrite drop_after_insert by lia.
      rewrite <- app_assoc. cbn [app]. rewrite <- !plus_n_Sm. reflexivity.
    + rewrite filter_cons_False in Hroom, Hbuf |- * by done.
      rewrite decide_False by lia. cbn [mbind option_bind].
      rewrite IH by lia. reflexivity.
Qed.

(** X8: when the stack holds fewer non-zero program counters than the
    maximum depth, the walk visits every frame and ends at the top of the
    stack, and the capture returns all of them: the count is the number of
    non-zero program counters, a shorter record and not an error. *)
Theorem capture_backtrace_shortfall (frames buffer : list Z) (d : Z) :
  Z.of_nat (length (filter (fun pc : Z => pc <> 0%Z) frames)) < d ->
  (length (filter (fun pc : Z => pc <> 0%Z) frames) <= length buffer)%nat ->
  _Unwind_Backtrace unwind_callback frames (mk_backtrace_state buffer d 0)
  = Some (_URC_END_OF_STACK, length frames,
          mk_backtrace_state
            (filter (fun pc : Z => pc <> 0%Z) frames
               ++ drop (length (filter (fun pc : Z => pc <> 0%Z) frames)) buffer)
            d (Z.of_nat (length (filter (fun pc : Z => pc <> 0%Z) frames))))
  /\ capture_backtrace frames buffer d
     = Some (filter (fun pc : Z => pc <> 0%Z) frames
               ++ drop (length (filter (fun pc : Z => pc <> 0%Z) frames)) buffer,
             Z.of_nat (length (filter (fun pc : Z => pc <> 0%Z) frames))).
Proof.
  intros Hd Hbuf.
  pose proof (unwind_walk_complete (Z.to_nat d) frames buffer 0
                ltac:(lia) ltac:(lia)) as Hrun.
  rewrite Z2Nat.id in Hrun by lia. change (Z.of_nat 0) with 0 in Hrun.
  rewrite take_0 in Hrun. cbn [app Nat.add] in Hrun.
  split; [exact Hrun|]. unfold capture_backtrace. by rewrite Hrun.
Qed.

Lemma capture_backtrace_shortfall_witness :
  capture_backtrace [4096; 0; 8192] [0; 0; 0; 0] 64
  = Some (filter (fun pc : Z => pc <> 0%Z) [4096; 0; 8192]
            ++ drop (length (filter (fun pc : Z => pc <> 0%Z) [4096; 0; 8192]))
                 [0; 0; 0; 0],
          Z.of_nat (length (filter (fun pc : Z => pc <> 0%Z) [4096; 0; 8192]))).
Proof.
  apply (capture_backtrace_shortfall [4096; 0; 8192] [0; 0; 0; 0] 64).
  - vm_compute. reflexivity.
  - vm_compute. lia.
Defined.

(** X9: with a maximum depth of zero or less the capture records nothing:
    the count is 0 and the buffer, of whatever size, is not written; the
    callback is called once, on the innermost frame, and stops the walk. *)
Theorem capture_backtrace_no_depth (frames buffer : list Z) (d : Z) :
  d <= 0 ->
  capture_backtrace frames buffer d = Some (buffer, 0)
  /\ exists (code : _Unwind_Reason_Code) (calls : nat),
       _Unwind_Backtrace unwind_callback frames (mk_backtrace_state buffer d 0)
       = Some (code, calls, mk_backtrace_state buffer d 0)
       /\ (calls <= 1)%nat
       /\ (frames <> [] -> calls = 1%nat /\ code = _URC_FATAL_PHASE1_ERROR).
Proof.
  intros Hd.
  assert (exists (code : _Unwind_Reason_Code) (calls : nat),
    _Unwind_Backtrace unwind_callback frames (mk_backtrace_state buffer d 0)
    = Some (code, calls, mk_backtrace_state buffer d 0)
    /\ (calls <= 1)%nat
    /\ (frames <> [] -> calls = 1%nat /\ code = _URC_FATAL_PHASE1_ERROR))
    as (code & calls & Hrun & Hcalls).
  { destruct frames as [|pc frames].
    - exists _URC_END_OF_STACK, 0%nat. split; [done|]. split; [lia|done].
    - exists _URC_FATAL_PHASE1_ERROR, 1%nat. split; [|done].
      cbn [_Unwind_Backtrace]. rewrite unwind_callback_eq.
      by rewrite decide_True by done. }
  split; [|by exists code, calls].
  unfold capture_backtrace. by rewrite Hrun.
Qed.

Lemma capture_backtrace_no_depth_witness :
  capture_backtrace [4096; 8192] [] (-1) = Some ([], 0).
Proof.
  apply (capture_backtrace_no_depth [4096; 8192] [] (-1)). lia.
Defined.

(** X10: a capture repeated on the same stack into the buffer the first
    capture filled returns the same count and leaves the buffer as it is:
    two consecutive captures give identical address sequences. *)
Theorem capture_backtrace_repeatable (frames buffer : list Z) (d : Z) :
  0 <= d <= Z.of_nat (length buffer) ->
  exists (buffer' : list Z) (n : Z),
    capture_backtrace frames buffer d = Some (buffer', n)
    /\ capture_backtrace frames buffer' d = Some (buffer', n).
Proof.
  intros Hd.
  pose proof (recorded_pcs_length d frames ltac:(lia)) as Hlen.
  exists (recorded_pcs d frames ++ drop (length (recorded_pcs d frames)) buffer),
    (Z.of_nat (length (recorded_pcs d frames))).
  split; [by apply capture_backtrace_run|].
  rewrite capture_backtrace_run
    by (rewrite length_app, length_drop; lia).
  by rewrite drop_app_length.
Qed.

Lemma capture_backtrace_repeatable_witness :
  exists (buffer' : list Z) (n : Z),
    capture_backtrace [4096; 0; 8192; 12288] [7; 7; 7] 2 = Some (buffer', n)
    /\ capture_backtrace [4096; 0; 8192; 12288] buffer' 2 = Some (buffer', n).
Proof.
  apply (capture_backtrace_repeatable [4096; 0; 8192; 12288] [7; 7; 7] 2).
  simpl. lia.
Defined.

(** ** The handler as a step of the process *)

Lemma handler_result_registration (sig : Z) (info : siginfo_t) (p : list char)
    (s : state) :
  registration_ok s -> registration_ok (handler_result sig info p s).
Proof.
  intros (Hpath & Hbt & Hold). unfold registration_ok, handler_result.
  cbn [g_crash_file_path g_backtrace_buffer g_old_handlers].
  split; [done|]. split; [|done]. case_decide; [|done].
  pose proof (recorded_pcs_length MAX_BACKTRACE_DEPTH (k_frames s)) as Hlen.
  assert (MAX_BACKTRACE_DEPTH = 64) as Hmax by reflexivity.
  rewrite length_app, length_drop, Hbt. lia.
Qed.

(** X11: the handler keeps the registration state well formed (the path
    buffer still holds its string, both tables keep their sizes) and uses up
    exactly one answer of [open]; so a fault on another signal, handled
    after the first handler has run, is handled as well. *)
Theorem handler_keeps_registration (sig : Z) (info : siginfo_t) (s : state) :
  registration_ok s ->
  exists s' : state,
    crash_signal_handler sig info s = Some (tt, s')
    /\ registration_ok s'
    /\ c_string (g_crash_file_path s') = c_string (g_crash_file_path s)
    /\ k_open s' = tail (k_open s)
    /\ k_frames s' = k_frames s
    /\ (forall (sig2 : Z) (info2 : siginfo_t),
          exists s'' : state,
            crash_signal_handler sig2 info2 s' = Some (tt, s'')
            /\ registration_ok s'').
Proof.
  intros Hreg. destruct (registration_path s Hreg) as [p Hp].
  pose proof (handler_result_registration sig info p s Hreg) as Hreg'.
  exists (handler_result sig info p s).
  split; [by apply crash_signal_handler_run|]. split; [exact Hreg'|].
  split; [done|]. split; [done|]. split; [done|].
  intros sig2 info2.
  exists (handler_result sig2 info2 p (handler_result sig info p s)).
  split; [by apply crash_signal_handler_run|].
  by apply handler_result_registration.
Qed.

Lemma handler_keeps_registration_witness :
  exists s' s'' : state,
    crash_signal_handler SIGSEGV (mk_siginfo SIGSEGV 16) (initial_state ∅ [3; 4] [4096])
    = Some (tt, s')
    /\ crash_signal_handler SIGABRT (mk_siginfo SIGABRT 0) s' = Some (tt, s'').
Proof.
  destruct (handler_keeps_registration SIGSEGV (mk_siginfo SIGSEGV 16)
              (initial_state ∅ [3; 4] [4096]))
    as (s' & Hrun & _ & _ & _ & _ & Hnext).
  - split; [by eexists|split; reflexivity].
  - destruct (Hnext SIGABRT (mk_siginfo SIGABRT 0)) as (s'' & Hrun' & _).
    exists s', s''. by split.
Defined.

Lemma count_writes_app (es es' : list event) :
  count_writes (es ++ es') = (count_writes es + count_writes es')%nat.
Proof.
  induction es as [|e es IH]; [done|].
  destruct e; cbn [app count_writes]; by rewrite IH.
Qed.

Lemma count_writes_frames (fd : Z) (pcs : list Z) :
  count_writes (frames_events fd pcs) = (3 * length pcs)%nat.
Proof.
  induction pcs as [|pc pcs IH]; [done|].
  rewrite frames_events_cons, count_writes_app, IH. cbn [line_events count_writes length].
  lia.
Qed.

Lemma count_writes_none (es : list event) :
  Forall (fun e => ~ is_write e) es -> count_writes es = 0%nat.
Proof.
  induction 1 as [|e es He _ IH]; [done|].
  destruct e; cbn [count_writes]; first [exact IH | by destruct He].
Qed.

(** X12: with a usable descriptor the handler calls [write] exactly
    [5 + 3 n] times, [n] being the number of frames recorded: two calls for
    the name line and three for each address line.  As [n] is at most
    [MAX_BACKTRACE_DEPTH], one fault costs at most 197 calls of [write]. *)
Theorem handler_write_count (sig : Z) (info : siginfo_t) (s : state) :
  registration_ok s -> 0 <= report_fd s ->
  exists s' : state,
    crash_signal_handler sig info s = Some (tt, s')
    /\ count_writes (events_since s s')
       = (5 + 3 * length (recorded_pcs MAX_BACKTRACE_DEPTH (k_frames s)))%nat
    /\ (count_writes (events_since s s') <= 197)%nat.
Proof.
  intros Hreg Hfd. destruct (registration_path s Hreg) as [p Hp].
  exists (handler_result sig info p s).
  split; [by apply crash_signal_handler_run|].
  rewrite handler_result_events. unfold handler_events, report_part.
  rewrite decide_True by done.
  assert (count_writes
            (EvOpen p open_flags 420 (next_open s)
             :: (report_events (report_fd s) sig (si_addr info)
                   (recorded_pcs MAX_BACKTRACE_DEPTH (k_frames s))
                 ++ (if decide (report_fd s <> g_crash_fd s)
                     then [EvClose (report_fd s)] else []))
                ++ restore_part sig s ++ [EvRaise sig])
          = (5 + 3 * length (recorded_pcs MAX_BACKTRACE_DEPTH (k_frames s)))%nat)
    as Hcount.
  { cbn [count_writes]. rewrite count_writes_app.
    rewrite (count_writes_none _ (restore_part_no_write sig s)).
    rewrite count_writes_app.
    assert (count_writes (if decide (report_fd s <> g_crash_fd s)
                          then [EvClose (report_fd s)] else []) = 0%nat) as ->
      by (by case_decide).
    unfold report_events. rewrite !count_writes_app, count_writes_frames.
    cbn [line_events count_writes]. lia. }
  split; [exact Hcount|]. rewrite Hcount.
  pose proof (recorded_pcs_length MAX_BACKTRACE_DEPTH (k_frames s)) as Hlen.
  assert (MAX_BACKTRACE_DEPTH = 64) as Hmax by reflexivity. lia.
Qed.

Lemma handler_write_count_witness :
  exists s' : state,
    crash_signal_handler SIGILL (mk_siginfo SIGILL 64)
      (initial_state ∅ [3] [4096; 0; 8192]) = Some (tt, s')
    /\ count_writes (events_since (initial_state ∅ [3] [4096; 0; 8192]) s')
       = (5 + 3 * length (recorded_pcs MAX_BACKTRACE_DEPTH [4096; 0; 8192]%Z))%nat.
Proof.
  destruct (handler_write_count SIGILL (mk_siginfo SIGILL 64)
              (initial_state ∅ [3] [4096; 0; 8192]))
    as (s' & Hrun & Hcount & _).
  - split; [by eexists|split; reflexivity].
  - vm_compute. discriminate.
  - exists s'. by split.
Defined.

(** ** Arming and faulting together *)

Lemma init_result_registration (text : list char) (s : state) :
  armable s -> Forall (fun c => c <> NUL) text ->
  registration_ok (init_result text s)
  /\ armable (init_result text s)
  /\ c_string (g_crash_file_path (init_result text s)) = Some (take 255 text)
  /\ k_open (init_result text s) = tail (k_open s)
  /\ k_frames (init_result text s) = k_frames s.
Proof.
  intros Harm Htext.
  destruct (init_result_fields text s Harm) as (Hpath & _ & Hbt & Hold & _).
  destruct Harm as (Hplen & Hbtlen & Holdlen).
  assert (c_string (g_crash_file_path (init_result text s)) = Some (take 255 text))
    as Hstr by (rewrite Hpath; by apply c_string_spec, Forall_take).
  assert (length (g_crash_file_path (init_result text s)) = 256%nat) as Hlen.
  { rewrite Hpath, length_app. cbn [length]. rewrite length_drop, length_take. lia. }
  split; [split; [by eexists|split; [by rewrite Hbt|exact Hold]]|].
  split; [split; [exact Hlen|split; [by rewrite Hbt|exact Hold]]|].
  split; [exact Hstr|].
  unfold init_result.
  destruct (install_all_frame crash_sigaction g_signals 0
              (set_crash_fd (next_open s)
                 (log (EvOpen text open_flags 420 (next_open s))
                    (set_open (tail (k_open s))
                       (set_crash_file_path
                          (take 255 text
                           ++ NUL :: drop (S (length (take 255 text)))
                                       (g_crash_file_path s)) s)))))
    as (_ & _ & _ & _ & -> & -> & _).
  by split.
Qed.

(** X13: [crash_handler_init] opens the path it is given, the handler opens
    the path kept in the path buffer, which holds the first 255 characters
    only.  For a path of at most 255 characters both open the same file; for
    a longer path the handler opens a different, shorter path than the one
    opened at arm time. *)
Theorem handler_opens_stored_path (sig : Z) (info : siginfo_t)
    (text rest : list char) (s0 : state) :
  armable s0 -> Forall (fun c => c <> NUL) text ->
  exists s1 s2 : state,
    crash_handler_init (text ++ NUL :: rest) s0 = Some (tt, s1)
    /\ crash_signal_handler sig info s1 = Some (tt, s2)
    /\ head (events_since s0 s1) = Some (EvOpen text open_flags 420 (next_open s0))
    /\ head (events_since s1 s2)
       = Some (EvOpen (take 255 text) open_flags 420 (next_open s1))
    /\ ((length text <= 255)%nat -> take 255 text = text)
    /\ ((255 < length text)%nat -> take 255 text <> text).
Proof.
  intros Harm Htext.
  destruct (init_result_registration text s0 Harm Htext) as (Hreg & _ & Hp & _).
  destruct (init_result_fields text s0 Harm) as (_ & _ & _ & _ & Htrace & _).
  exists (init_result text s0),
    (handler_result sig info (take 255 text) (init_result text s0)).
  split; [by apply crash_handler_init_run|].
  split; [by apply crash_signal_handler_run|].
  split; [by rewrite (events_since_app _ _ _ Htrace)|].
  split; [by rewrite handler_result_events|].
  split; [intros Hle; by apply take_ge|].
  intros Hgt Heq. apply (f_equal length) in Heq. rewrite length_take in Heq. lia.
Qed.

Lemma handler_opens_stored_path_witness :
  exists s1 s2 : state,
    crash_handler_init (cstr "/data/crash.log") (initial_state ∅ [3; 4] []) = Some (tt, s1)
    /\ crash_signal_handler SIGSEGV (mk_siginfo SIGSEGV 0) s1 = Some (tt, s2)
    /\ head (events_since s1 s2)
       = Some (EvOpen (take 255 (list_ascii_of_string "/data/crash.log"))
                 open_flags 420 (next_open s1)).
Proof.
  destruct (handler_opens_stored_path SIGSEGV (mk_siginfo SIGSEGV 0)
              (list_ascii_of_string "/data/crash.log") []
              (initial_state ∅ [3; 4] []))
    as (s1 & s2 & Hinit & Hrun & _ & Hopen & _).
  - repeat split.
  - repeat constructor; discriminate.
  - exists s1, s2. split; [exact Hinit|]. split; [exact Hrun|exact Hopen].
Defined.

(** X14: arming twice is not harmless.  The second [crash_handler_init]
    saves, as the previous action of every monitored signal, the fault
    handler the first one installed; the handler then restores the fault
    handler itself, so the re-raised signal reaches the fault handler again
    instead of the action the signal had before arming.  The descriptor of
    the first call is replaced without being closed. *)
Theorem arming_twice_chains_to_itself (sig : Z) (info : siginfo_t)
    (text1 rest1 text2 rest2 : list char) (s0 : state) :
  armable s0 ->
  Forall (fun c => c <> NUL) text1 -> Forall (fun c => c <> NUL) text2 ->
  exists s1 s2 s3 : state,
    crash_handler_init (text1 ++ NUL :: rest1) s0 = Some (tt, s1)
    /\ crash_handler_init (text2 ++ NUL :: rest2) s1 = Some (tt, s2)
    /\ crash_signal_handler sig info s2 = Some (tt, s3)
    /\ (forall (i : nat) (sg : Z),
          g_signals !! i = Some sg -> g_old_handlers s2 !! i = Some crash_sigaction)
    /\ ((sig ∈ g_signals) -> action_of s3 sig = crash_sigaction)
    /\ g_crash_fd s1 = next_open s0
    /\ g_crash_fd s2 = next_open s1
    /\ (forall fd : Z, EvClose fd ∉ events_since s0 s2).
Proof.
  intros Harm Ht1 Ht2.
  destruct (init_result_registration text1 s0 Harm Ht1) as (_ & Harm1 & _).
  destruct (init_result_registration text2 _ Harm1 Ht2) as (Hreg2 & _ & Hp2 & _).
  destruct (init_result_fields text1 s0 Harm)
    as (_ & Hfd1 & _ & _ & Htrace1 & Hmon1 & _).
  destruct (init_result_fields text2 _ Harm1)
    as (_ & Hfd2 & _ & _ & Htrace2 & Hmon2 & _).
  set (s1 := init_result text1 s0) in *.
  set (s2 := init_result text2 s1) in *.
  assert (forall (i : nat) (sg : Z),
            g_signals !! i = Some sg -> g_old_handlers s2 !! i = Some crash_sigaction)
    as Hold.
  { intros i sg Hi. destruct (Hmon2 i sg Hi) as [-> _].
    f_equal. by apply (Hmon1 i sg Hi). }
  exists s1, s2, (handler_result sig info (take 255 text2) s2).
  split; [by apply crash_handler_init_run|].
  split; [by apply crash_handler_init_run|].
  split; [by apply crash_signal_handler_run|].
  split; [exact Hold|]. split; [|split; [exact Hfd1|split; [exact Hfd2|]]].
  - intros Hin. apply list_elem_of_lookup in Hin as [i Hi].
    unfold action_of, handler_result. cbn [k_actions].
    unfold restored_action. rewrite (proj2 (signal_index_lookup sig i) Hi).
    cbn [mbind option_bind]. rewrite (Hold i sig Hi).
    by rewrite lookup_insert_eq.
  - intros fd Hin.
    rewrite (events_since_app s0 s2
               (EvOpen text1 open_flags 420 (next_open s0)
                  :: ((fun sg => EvSigaction sg (Some crash_sigaction)) <$> g_signals)
                ++ EvOpen text2 open_flags 420 (next_open s1)
                  :: ((fun sg => EvSigaction sg (Some crash_sigaction)) <$> g_signals)))
      in Hin by (rewrite Htrace2, Htrace1; by rewrite <- app_assoc).
    rewrite elem_of_cons, elem_of_app, elem_of_cons, !list_elem_of_fmap in Hin.
    destruct Hin as [?|[(? & ? & _)|[?|(? & ? & _)]]]; discriminate.
Qed.

Lemma arming_twice_chains_to_itself_witness :
  exists s1 s2 s3 : state,
    crash_handler_init (cstr "/a") (initial_state ∅ [3; 4; 5] []) = Some (tt, s1)
    /\ crash_handler_init (cstr "/b") s1 = Some (tt, s2)
    /\ crash_signal_handler SIGTRAP (mk_siginfo SIGTRAP 0) s2 = Some (tt, s3)
    /\ action_of s3 SIGTRAP = crash_sigaction.
Proof.
  destruct (arming_twice_chains_to_itself SIGTRAP (mk_siginfo SIGTRAP 0)
              (list_ascii_of_string "/a") [] (list_ascii_of_string "/b") []
              (initial_state ∅ [3; 4; 5] []))
    as (s1 & s2 & s3 & H1 & H2 & H3 & _ & Hact & _).
  - repeat split.
  - repeat constructor; discriminate.
  - repeat constructor; discriminate.
  - exists s1, s2, s3. split; [exact H1|]. split; [exact H2|].
    split; [exact H3|]. apply Hact.
    unfold g_signals. rewrite !elem_of_cons. tauto.
Defined.

Lemma handler_events_tail_no_write (sig : Z) (s : state) :
  Forall (fun e => ~ is_write e)
    ((if decide (report_fd s <> g_crash_fd s) then [EvClose (report_fd s)] else [])
     ++ restore_part sig s ++ [EvRaise sig]).
Proof.
  apply Forall_app. split; [|apply restore_part_no_write].
  case_decide; repeat constructor. by intros [].
Qed.

(** The bytes the handler writes to the descriptor it reports on. *)
Lemma written_handler_events (sig : Z) (info : siginfo_t) (p : list char) (s : state) :
  0 <= report_fd s ->
  written (report_fd s) (handler_events sig info p s)
  = report_text (signal_text sig) (itoa_text 16 (to_ulong (si_addr info)))
      ((fun pc => itoa_text 16 (to_ulong pc))
         <$> recorded_pcs MAX_BACKTRACE_DEPTH (k_frames s)).
Proof.
  intros Hfd. unfold handler_events, report_part. rewrite decide_True by done.
  change (written (report_fd s) (?e :: ?es)) with (written (report_fd s) es).
  rewrite <- app_assoc, written_app, written_report.
  by rewrite (written_no_write _ _ (handler_events_tail_no_write sig s)), app_nil_r.
Qed.

(** No byte goes to any other descriptor. *)
Lemma written_handler_events_other (sig : Z) (info : siginfo_t) (p : list char)
    (s : state) (fd : Z) :
  fd <> report_fd s -> written fd (handler_events sig info p s) = [].
Proof.
  intros Hne. apply written_other. unfold handler_events, report_part.
  rewrite Forall_cons. split; [done|].
  case_decide.
  - rewrite <- app_assoc. apply Forall_app. split.
    + eapply Forall_impl; [apply report_events_writes|].
      intros e [data ->] data'. congruence.
    + eapply Forall_impl; [apply handler_events_tail_no_write|].
      intros e He data ->. by apply He.
  - cbn [app]. eapply Forall_impl; [apply restore_part_no_write|].
    intros e He data ->. by apply He.
Qed.

(** X15: arming and then faulting, in terms of the two answers of [open],
    [r1] at arm time and [r2] at fault time.  Both calls return.  When
    [r2] is valid the whole report goes to [r2], which is closed if it is
    not [r1], and nothing is written to [r1]; when [r2] is negative and
    [r1] valid the same report goes to [r1] and no descriptor is closed;
    when both are negative no [write] is made. *)
Theorem arm_then_fault_descriptors (sig : Z) (info : siginfo_t)
    (text rest : list char) (r1 r2 : Z) (more : list Z) (s0 : state) :
  armable s0 -> Forall (fun c => c <> NUL) text ->
  k_open s0 = r1 :: r2 :: more ->
  exists s1 s2 : state,
    crash_handler_init (text ++ NUL :: rest) s0 = Some (tt, s1)
    /\ crash_signal_handler sig info s1 = Some (tt, s2)
    /\ g_crash_fd s1 = r1
    /\ (0 <= r2 ->
        written r2 (events_since s1 s2)
        = report_text (signal_text sig) (itoa_text 16 (to_ulong (si_addr info)))
            ((fun pc => itoa_text 16 (to_ulong pc))
               <$> recorded_pcs MAX_BACKTRACE_DEPTH (k_frames s0))
        /\ (r2 <> r1 ->
            EvClose r2 ∈ events_since s1 s2 /\ written r1 (events_since s1 s2) = []))
    /\ (r2 < 0 -> 0 <= r1 ->
        written r1 (events_since s1 s2)
        = report_text (signal_text sig) (itoa_text 16 (to_ulong (si_addr info)))
            ((fun pc => itoa_text 16 (to_ulong pc))
               <$> recorded_pcs MAX_BACKTRACE_DEPTH (k_frames s0))
        /\ (forall fd : Z, EvClose fd ∉ events_since s1 s2))
    /\ (r2 < 0 -> r1 < 0 -> count_writes (events_since s1 s2) = 0%nat).
Proof.
  intros Harm Htext Hopen.
  destruct (init_result_registration text s0 Harm Htext)
    as (Hreg & _ & Hp & Hopen1 & Hframes).
  destruct (init_result_fields text s0 Harm) as (_ & Hfd & _).
  set (s1 := init_result text s0) in *.
  assert (g_crash_fd s1 = r1) as Hr1 by (rewrite Hfd; unfold next_open; by rewrite Hopen).
  assert (next_open s1 = r2) as Hr2
    by (unfold next_open; rewrite Hopen1, Hopen; reflexivity).
  assert (report_fd s1 = if decide (r2 < 0) then r1 else r2) as Hrfd
    by (unfold report_fd; by rewrite Hr1, Hr2).
  exists s1, (handler_result sig info (take 255 text) s1).
  split; [by apply crash_handler_init_run|].
  split; [by apply crash_signal_handler_run|].
  split; [exact Hr1|].
  rewrite handler_result_events.
  assert (forall fd : Z, EvClose fd ∉ restore_part sig s1 ++ [EvRaise sig]) as Hres.
  { intros fd Hin.
    pose proof (restore_part_no_write sig s1) as Hw.
    unfold restore_part in *.
    destruct (restored_action sig s1); cbn [app] in Hin;
      repeat (apply elem_of_cons in Hin as [Hin|Hin]; [discriminate|]);
      by apply elem_of_nil in Hin. }
  split; [|split].
  - intros Hfresh. rewrite decide_False in Hrfd by lia.
    split.
    + rewrite <- Hrfd at 1. rewrite written_handler_events by lia.
      by rewrite Hframes.
    + intros Hne. split.
      * unfold handler_events, report_part. rewrite Hrfd, Hr1.
        rewrite decide_True by done. rewrite decide_True by done.
        rewrite elem_of_cons, !elem_of_app. right. left. right.
        by apply list_elem_of_singleton.
      * apply written_handler_events_other. rewrite Hrfd. congruence.
  - intros Hfail Hfallback. rewrite decide_True in Hrfd by done.
    assert (forall fd : Z,
              EvClose fd ∉ handler_events sig info (take 255 text) s1) as Hnc.
    { intros fd. unfold handler_events, report_part. rewrite Hrfd, Hr1.
      rewrite decide_True by done.
      rewrite decide_False by (intros H; by apply H). rewrite app_nil_r.
      rewrite elem_of_cons, elem_of_app.
      intros [?|[Hin|Hin]]; [done| |by destruct (Hres fd)].
      pose proof (report_events_writes r1 sig (si_addr info)
                    (recorded_pcs MAX_BACKTRACE_DEPTH (k_frames s1))) as Hw.
      rewrite Forall_forall in Hw. by destruct (Hw _ Hin) as [data ?]. }
    split; [|exact Hnc].
    rewrite <- Hrfd at 1. rewrite written_handler_events by lia.
    by rewrite Hframes.
  - intros Hfail Hfail1. rewrite decide_True in Hrfd by done.
    unfold handler_events, report_part. rewrite Hrfd.
    rewrite decide_False by lia. cbn [app count_writes].
    apply count_writes_none, restore_part_no_write.
Qed.

Lemma arm_then_fault_descriptors_witness :
  exists s1 s2 : state,
    crash_handler_init (cstr "/data/crash.log") (initial_state ∅ [3; -1] [4096])
    = Some (tt, s1)
    /\ crash_signal_handler SIGSEGV (mk_siginfo SIGSEGV 0) s1 = Some (tt, s2)
    /\ written 3 (events_since s1 s2)
       = report_text (signal_text SIGSEGV) (itoa_text 16 (to_ulong 0))
           ((fun pc => itoa_text 16 (to_ulong pc))
              <$> recorded_pcs MAX_BACKTRACE_DEPTH [4096]).
Proof.
  destruct (arm_then_fault_descriptors SIGSEGV (mk_siginfo SIGSEGV 0)
              (list_ascii_of_string "/data/crash.log") [] 3 (-1) []
              (initial_state ∅ [3; -1] [4096]))
    as (s1 & s2 & Hinit & Hrun & _ & _ & Hfallback & _).
  - repeat split.
  - repeat constructor; discriminate.
  - reflexivity.
  - exists s1, s2. split; [exact Hinit|]. split; [exact Hrun|].
    apply Hfallback; [lia|lia].
Defined.

(** ** The depth has to fit the buffer *)

Lemma unwind_walk_overflow (d : Z) (frames : list Z) :
  forall (buf : list Z) (cnt : nat),
    Z.of_nat (length buf) < d -> (cnt <= length buf)%nat ->
    (length buf < cnt + length (filter (fun pc : Z => pc <> 0%Z) frames))%nat ->
    _Unwind_Backtrace unwind_callback frames
      (mk_backtrace_state buf d (Z.of_nat cnt)) = None.
Proof.
  induction frames as [|pc frames IH]; intros buf cnt Hd Hcnt Hmany.
  - rewrite filter_nil in Hmany. simpl in Hmany. lia.
  - cbn [_Unwind_Backtrace]. rewrite unwind_callback_eq.
    rewrite decide_False by lia.
    destruct (decide (pc <> 0)) as [Hpc|Hpc].
    + rewrite filter_cons_True in Hmany by done. cbn [length] in Hmany.
      destruct (decide (cnt < length buf)%nat) as [Hlt|Hge].
      * rewrite store_nat by done. cbn [mbind option_bind].
        replace (Z.of_nat cnt + 1) with (Z.of_nat (S cnt)) by lia.
        rewrite IH; [done|by rewrite length_insert|rewrite length_insert; lia
                    |rewrite length_insert; lia].
      * unfold store. by rewrite decide_False by lia.
    + rewrite filter_cons_False in Hmany by done. cbn [mbind option_bind].
      by rewrite IH.
Qed.

(** X16: [unwind_callback] is bounded by [max_depth] alone and does not
    know the size of the buffer: with a maximum depth above the size of the
    buffer and more non-zero program counters on the stack than the buffer
    holds, the capture stores past the end of the buffer (undefined
    behaviour, [None] here).  The depth passed has to be at most the size
    of the buffer, as it is in the handler. *)
Theorem capture_backtrace_needs_room (frames buffer : list Z) (d : Z) :
  Z.of_nat (length buffer) < d ->
  (length buffer < length (filter (fun pc : Z => pc <> 0%Z) frames))%nat ->
  capture_backtrace frames buffer d = None.
Proof.
  intros Hd Hmany. unfold capture_backtrace.
  change 0 with (Z.of_nat 0).
  by rewrite unwind_walk_overflow by (done || lia).
Qed.

Lemma capture_backtrace_needs_room_witness :
  capture_backtrace [4096; 8192; 0; 12288] [0; 0] 3 = None.
Proof.
  apply (capture_backtrace_needs_room [4096; 8192; 0; 12288] [0; 0] 3).
  - vm_compute. reflexivity.
  - vm_compute. lia.
Defined.
